(** * Verification of the privacy-policy extraction pipeline (main.py)

    A shallow embedding of the document segmentation, JSON recovery,
    annotation pipeline and result flattening of [main.py], with the
    properties of its design document stated and settled against it. *)

From Stdlib Require Import Ascii String DecimalString.
From Stdlib Require Import NArith ZArith Bool Lia Arith List Sorted.
Import ListNotations.

Set Implicit Arguments.
Set Warnings "-register-all".

(** ** Python strings

    A Python [str] is a sequence of Unicode code points; indices, slices
    and regular expressions all work on code points.  A code point is an
    [N], a string a list of them. *)

Definition char := N.
Definition pystr := list char.

Definition char_eqb (a b : char) : bool := N.eqb a b.

Fixpoint str_eqb (a b : pystr) : bool :=
  match a, b with
  | [], [] => true
  | x :: a', y :: b' => char_eqb x y && str_eqb a' b'
  | _, _ => false
  end.

(** Source text is written as UTF-8 string literals and decoded to code
    points. *)
Fixpoint utf8_decode (bs : list N) : pystr :=
  match bs with
  | [] => []
  | b0 :: r0 =>
    if (b0 <? 0x80)%N then b0 :: utf8_decode r0
    else if (b0 <? 0xE0)%N then
      match r0 with
      | b1 :: r1 => ((b0 - 0xC0) * 64 + (b1 - 0x80))%N :: utf8_decode r1
      | _ => []
      end
    else if (b0 <? 0xF0)%N then
      match r0 with
      | b1 :: b2 :: r2 =>
        ((b0 - 0xE0) * 4096 + (b1 - 0x80) * 64 + (b2 - 0x80))%N
          :: utf8_decode r2
      | _ => []
      end
    else
      match r0 with
      | b1 :: b2 :: b3 :: r3 =>
        ((b0 - 0xF0) * 262144 + (b1 - 0x80) * 4096
         + (b2 - 0x80) * 64 + (b3 - 0x80))%N :: utf8_decode r3
      | _ => []
      end
  end.

Definition u (s : string) : pystr :=
  utf8_decode (map N_of_ascii (list_ascii_of_string s)).

Definition ch (a : ascii) : char := N_of_ascii a.

(** [c in s] for a one-character [c]. *)
Definition mem_char (c : char) (s : pystr) : bool := existsb (char_eqb c) s.

(** [s.count(c)] for a one-character [c]. *)
Definition count_char (c : char) (s : pystr) : nat :=
  length (filter (char_eqb c) s).

(** [s[a:b]] for [0 <= a], [0 <= b]. *)
Definition slice (s : pystr) (a b : nat) : pystr := firstn (b - a) (skipn a s).

(** [str.isspace] on one code point (Unicode 14, CPython 3.11). *)
Definition py_isspace (c : char) : bool :=
  ((0x9 <=? c) && (c <=? 0xD) || (0x1C <=? c) && (c <=? 0x20)
   || (c =? 0x85) || (c =? 0xA0) || (c =? 0x1680)
   || (0x2000 <=? c) && (c <=? 0x200A)
   || (c =? 0x2028) || (c =? 0x2029) || (c =? 0x202F) || (c =? 0x205F)
   || (c =? 0x3000))%N.

Fixpoint dropwhile (p : char -> bool) (s : pystr) : pystr :=
  match s with
  | [] => []
  | c :: r => if p c then dropwhile p r else s
  end.

(** [s.strip()] and [s.strip(chars)]: both ends lose their longest run of
    characters of the set. *)
Definition strip_by (p : char -> bool) (s : pystr) : pystr :=
  rev (dropwhile p (rev (dropwhile p s))).

Definition strip (s : pystr) : pystr := strip_by py_isspace s.

Definition strip_chars (chars s : pystr) : pystr :=
  strip_by (fun c => mem_char c chars) s.

(** Truth value of a string: non-empty. *)
Definition nonempty (s : pystr) : bool :=
  match s with [] => false | _ => true end.

(** ** Regular expressions ([re])

    The patterns of the program use literals, character classes, [\d],
    [.], [^], sequencing, alternation and the greedy [*], [+] and [?].
    Groups only delimit: the program reads whole matches only. *)

Inductive class_item :=
| CChar (c : char)
| CDigit.

Inductive regex :=
| REmpty
| RChar (c : char)
| RSet (items : list class_item)
| RAny
| RBol
| RSeq (a b : regex)
| RAlt (a b : regex)
| RStar (a : regex)
| RPlus (a : regex)
| ROpt (a : regex).

(** [\d] on [str] patterns: the Unicode decimal digits (category Nd,
    Unicode 14), in runs of consecutive code points. *)
Definition digit_runs : list (N * N) :=
  [ (0x30, 0x39); (0x660, 0x669); (0x6f0, 0x6f9); (0x7c0, 0x7c9);
    (0x966, 0x96f); (0x9e6, 0x9ef); (0xa66, 0xa6f); (0xae6, 0xaef);
    (0xb66, 0xb6f); (0xbe6, 0xbef); (0xc66, 0xc6f); (0xce6, 0xcef);
    (0xd66, 0xd6f); (0xde6, 0xdef); (0xe50, 0xe59); (0xed0, 0xed9);
    (0xf20, 0xf29); (0x1040, 0x1049); (0x1090, 0x1099); (0x17e0, 0x17e9);
    (0x1810, 0x1819); (0x1946, 0x194f); (0x19d0, 0x19d9); (0x1a80, 0x1a89);
    (0x1a90, 0x1a99); (0x1b50, 0x1b59); (0x1bb0, 0x1bb9); (0x1c40, 0x1c49);
    (0x1c50, 0x1c59); (0xa620, 0xa629); (0xa8d0, 0xa8d9); (0xa900, 0xa909);
    (0xa9d0, 0xa9d9); (0xa9f0, 0xa9f9); (0xaa50, 0xaa59); (0xabf0, 0xabf9);
    (0xff10, 0xff19); (0x104a0, 0x104a9); (0x10d30, 0x10d39);
    (0x11066, 0x1106f); (0x110f0, 0x110f9); (0x11136, 0x1113f);
    (0x111d0, 0x111d9); (0x112f0, 0x112f9); (0x11450, 0x11459);
    (0x114d0, 0x114d9); (0x11650, 0x11659); (0x116c0, 0x116c9);
    (0x11730, 0x11739); (0x118e0, 0x118e9); (0x11950, 0x11959);
    (0x11c50, 0x11c59); (0x11d50, 0x11d59); (0x11da0, 0x11da9);
    (0x16a60, 0x16a69); (0x16ac0, 0x16ac9); (0x16b50, 0x16b59);
    (0x1d7ce, 0x1d7ff); (0x1e140, 0x1e149); (0x1e2f0, 0x1e2f9);
    (0x1e950, 0x1e959); (0x1fbf0, 0x1fbf9) ]%N.

Definition is_decimal (c : char) : bool :=
  existsb (fun r => (fst r <=? c) && (c <=? snd r))%N digit_runs.

Definition class_item_matches (c : char) (it : class_item) : bool :=
  match it with
  | CChar d => char_eqb c d
  | CDigit => is_decimal c
  end.

Definition class_matches (items : list class_item) (c : char) : bool :=
  existsb (class_item_matches c) items.

Definition LF : char := 10%N.

(** The greedy repetition of a step that matches one more item: as many
    items as possible, then fewer.  An item that consumes nothing ends the
    repetition. *)
Fixpoint star_loop (A : Type)
    (step : nat -> pystr -> (nat -> pystr -> option A) -> option A)
    (k : nat -> pystr -> option A) (fuel : nat) (pos : nat) (s : pystr)
  : option A :=
  match fuel with
  | O => k pos s
  | S fuel' =>
    match step pos s
            (fun pos' s' =>
               if Nat.eqb pos' pos then None else star_loop step k fuel' pos' s')
    with
    | Some x => Some x
    | None => k pos s
    end
  end.

(** The backtracking matcher, in continuation-passing style: [rmatch r pos
    s k] matches [r] at offset [pos] of the subject, whose remaining
    characters are [s], and hands the offset and the rest after the match to
    [k]; alternatives are tried in the order [re] tries them (left branch
    first, longest repetition first). *)
Fixpoint rmatch (A : Type) (r : regex) (pos : nat) (s : pystr)
    (k : nat -> pystr -> option A) {struct r} : option A :=
  match r with
  | REmpty => k pos s
  | RChar c =>
    match s with
    | d :: s' => if char_eqb d c then k (S pos) s' else None
    | [] => None
    end
  | RSet items =>
    match s with
    | d :: s' => if class_matches items d then k (S pos) s' else None
    | [] => None
    end
  | RAny =>
    match s with
    | d :: s' => if char_eqb d LF then None else k (S pos) s'
    | [] => None
    end
  | RBol => if Nat.eqb pos 0 then k pos s else None
  | RSeq a b => rmatch a pos s (fun pos' s' => rmatch b pos' s' k)
  | RAlt a b =>
    match rmatch a pos s k with
    | Some x => Some x
    | None => rmatch b pos s k
    end
  | RStar a => star_loop (rmatch a) k (length s) pos s
  | RPlus a =>
    rmatch a pos s (fun pos1 s1 => star_loop (rmatch a) k (length s1) pos1 s1)
  | ROpt a =>
    match rmatch a pos s k with
    | Some x => Some x
    | None => k pos s
    end
  end.

(** [leaves P r]: every character that [r] can consume satisfies [P]. *)
Fixpoint leaves (P : char -> bool) (r : regex) : Prop :=
  match r with
  | REmpty | RBol => True
  | RChar c => P c = true
  | RSet items => forall c, class_matches items c = true -> P c = true
  | RAny => forall c, char_eqb c LF = false -> P c = true
  | RSeq a b | RAlt a b => leaves P a /\ leaves P b
  | RStar a | RPlus a | ROpt a => leaves P a
  end.

(** What a successful match has consumed. *)
Definition consumes (P : char -> bool) (A : Type)
    (step : nat -> pystr -> (nat -> pystr -> option A) -> option A) : Prop :=
  forall pos s k x,
    step pos s k = Some x ->
    exists m s',
      s = m ++ s' /\ Forall (fun c => P c = true) m /\
      k (pos + length m) s' = Some x.

(** One match attempt at [pos]: the end offset of the match.  After an empty
    match the next attempt at the same offset must consume something
    ([must_advance]). *)
Definition match_at (r : regex) (must_advance : bool) (pos : nat) (s : pystr)
  : option nat :=
  rmatch r pos s
    (fun e _ => if must_advance && Nat.eqb e pos then None else Some e).

(** [pattern.finditer(text)]: the spans [(m.start(), m.end())] of the
    non-overlapping matches, scanning left to right. *)
Fixpoint finditer_from (r : regex) (fuel : nat) (must_advance : bool)
    (pos : nat) (s : pystr) : list (nat * nat) :=
  match fuel with
  | O => []
  | S fuel' =>
    match match_at r must_advance pos s with
    | Some e =>
      (pos, e) :: finditer_from r fuel' (Nat.eqb e pos) e (skipn (e - pos) s)
    | None =>
      match s with
      | [] => []
      | _ :: s' => finditer_from r fuel' false (S pos) s'
      end
    end
  end.

Definition finditer (r : regex) (text : pystr) : list (nat * nat) :=
  finditer_from r (2 * length text + 2) false 0 text.

(** [re.findall(pat, text)] for a pattern without capturing groups: the
    matched substrings. *)
Definition findall (r : regex) (text : pystr) : list pystr :=
  map (fun m => slice text (fst m) (snd m)) (finditer r text).

(** ** StructureDetector: [detect_min_level], [build_level_regex],
    [split_by_detected_level] *)

Definition cn_numerals : pystr :=
  Eval vm_compute in u "一二三四五六七八九十".

(** The separators of [[、.．．]]. *)
Definition separators : pystr := Eval vm_compute in u "、.．．".

Definition chars (s : pystr) : list class_item := map CChar s.

Definition DOT : char := Eval vm_compute in ch ".".
Definition BACKSLASH : char := Eval vm_compute in ch "\".

(** [\d+] *)
Definition digits1 : regex := RPlus (RSet [CDigit]).

(** [[、.．．]] *)
Definition sep_class : regex := RSet (chars separators).

(** [[一二三四五六七八九十\d]+] *)
Definition cn_or_digit1 : regex := RPlus (RSet (chars cn_numerals ++ [CDigit])).

(** [[一二三四五六七八九十]+] *)
Definition cn1 : regex := RPlus (RSet (chars cn_numerals)).

(** The four patterns of [detect_min_level], in its order. *)
Definition patterns : list regex :=
  [ (* \d+(?:\.\d+)*[、.．．]? *)
    RSeq digits1 (RSeq (RStar (RSeq (RChar DOT) digits1)) (ROpt sep_class));
    (* \([一二三四五六七八九十\d]+\) *)
    RSeq (RChar (ch "(")) (RSeq cn_or_digit1 (RChar (ch ")")));
    (* （[一二三四五六七八九十\d]+） *)
    RSeq (RChar 0xFF08%N) (RSeq cn_or_digit1 (RChar 0xFF09%N));
    (* [一二三四五六七八九十]+、 *)
    RSeq cn1 (RChar 0x3001%N) ].

(** [m.count('.') + 1 if '.' in m else 1] *)
Definition depth_of (m : pystr) : nat :=
  if mem_char DOT m then count_char DOT m + 1 else 1.

Definition detect_min_level (text : pystr) (max_chars : nat) : nat :=
  let sample := firstn max_chars text in
  let all_matches := flat_map (fun pat => findall pat sample) patterns in
  fold_left
    (fun max_depth m =>
       let depth := depth_of m in
       if max_depth <? depth then depth else max_depth)
    all_matches 1.

(** [(?:^|\n)] *)
Definition line_start : regex := RAlt RBol (RChar LF).

(** [sep.join([item] * n)], as a sequence of regexes. *)
Fixpoint join_seq (sep item : regex) (n : nat) : regex :=
  match n with
  | O => REmpty
  | S O => item
  | S n' => RSeq item (RSeq sep (join_seq sep item n'))
  end.

Definition build_level_regex (level : nat) : regex :=
  match level with
  | 1 =>
    RSeq line_start
      (RAlt (RSeq digits1 sep_class)
         (RAlt (RSeq cn1 (RChar 0x3001%N))
            (RAlt (RSeq (RChar 0xFF08%N) (RSeq cn_or_digit1 (RChar 0xFF09%N)))
               (RSeq (RChar (ch "(")) (RSeq cn_or_digit1 (RChar (ch ")")))))))
  | 2 =>
    RSeq line_start
      (RSeq digits1 (RSeq (RChar DOT) (RSeq digits1 (ROpt sep_class))))
  | 3 =>
    RSeq line_start
      (RSeq digits1
         (RSeq (RChar DOT)
            (RSeq digits1 (RSeq (RChar DOT) (RSeq digits1 (ROpt sep_class))))))
  | _ =>
    (* The raw strings r'\\.' and r'\\d+' reach [re] with both backslashes:
       a literal backslash followed by [.] (any character), and a literal
       backslash followed by [d+]. *)
    RSeq line_start
      (RSeq (join_seq (RSeq (RChar BACKSLASH) RAny)
               (RSeq (RChar BACKSLASH) (RPlus (RChar (ch "d")))) level)
         (ROpt sep_class))
  end.

(** The loop over [enumerate(matches)]: a paragraph runs from the start of
    its match to the start of the next one, the last to [len(text)]. *)
Fixpoint para_spans (matches : list (nat * nat)) (len : nat)
  : list (nat * nat) :=
  match matches with
  | [] => []
  | m :: rest =>
    (fst m, match rest with m' :: _ => fst m' | [] => len end)
      :: para_spans rest len
  end.

Definition split_by_detected_level (text : pystr) : list pystr :=
  let min_level := detect_min_level text 1000 in
  let pattern := build_level_regex min_level in
  let matches := finditer pattern text in
  match matches with
  | [] => if nonempty (strip text) then [strip text] else []
  | _ =>
    let paras :=
      map (fun sp => strip (slice text (fst sp) (snd sp)))
        (para_spans matches (length text)) in
    let last_end := snd (last matches (0, 0)) in
    let paras :=
      if last_end <? length text then
        let tail := strip (skipn last_end text) in
        if nonempty tail then paras ++ [tail] else paras
      else paras in
    filter nonempty paras
  end.


(** ** JsonRecoverer: [extract_first_json] *)

Definition LBRACE : char := Eval vm_compute in ch "{".
Definition RBRACE : char := Eval vm_compute in ch "}".
Definition LBRACK : char := Eval vm_compute in ch "[".
Definition RBRACK : char := Eval vm_compute in ch "]".
Definition BACKTICK : char := Eval vm_compute in ch "`".

(** A letter of a pattern compiled with [re.IGNORECASE]: the characters
    whose lower case is the letter, and for [s] also U+017F. *)
Definition ci_letter (lower upper : ascii) (extra : list char) : regex :=
  RSet (chars (ch lower :: ch upper :: extra)).

(** [^```(?:json)?] with [flags=re.IGNORECASE]. *)
Definition fence : regex :=
  RSeq RBol
    (RSeq (RChar BACKTICK) (RSeq (RChar BACKTICK) (RSeq (RChar BACKTICK)
       (ROpt (RSeq (ci_letter "j" "J" [])
                (RSeq (ci_letter "s" "S" [0x17F%N])
                   (RSeq (ci_letter "o" "O" []) (ci_letter "n" "N" [])))))))).

(** [re.sub(pattern, repl, text)]: every match replaced by [repl]. *)
Fixpoint sub_spans (repl text : pystr) (pos : nat) (spans : list (nat * nat))
  : pystr :=
  match spans with
  | [] => skipn pos text
  | sp :: rest =>
    slice text pos (fst sp) ++ repl ++ sub_spans repl text (snd sp) rest
  end.

Definition re_sub (r : regex) (repl text : pystr) : pystr :=
  sub_spans repl text 0 (finditer r text).

(** [text.find(c)]: the first index of [c], or -1. *)
Fixpoint find_from (c : char) (s : pystr) (i : Z) : Z :=
  match s with
  | [] => (-1)%Z
  | d :: r => if char_eqb d c then i else find_from c r (i + 1)%Z
  end.

Definition find (s : pystr) (c : char) : Z := find_from c s 0%Z.

(** [min(l)] on a non-empty list of integers. *)
Definition list_min (l : list Z) : Z :=
  match l with
  | [] => 0%Z
  | x :: r => fold_left Z.min r x
  end.

(** The line of markdown clean-up at the head of [extract_first_json]. *)
Definition clean (text : pystr) : pystr :=
  strip_chars (BACKTICK :: ch " " :: LF :: nil) (re_sub fence [] (strip text)).

(** The least of the indices of the first opening brace and the first
    opening square bracket that are not -1, or -1 when both are. *)
Definition first_open (text : pystr) : Z :=
  let found :=
    filter (fun i => negb (i =? -1)%Z) [find text LBRACE; find text LBRACK] in
  list_min (match found with [] => [(-1)%Z] | _ => found end).

(** The two membership tests of the loop: an opening bracket, a closing
    bracket. *)
Definition is_open (c : char) : bool := mem_char c [LBRACE; LBRACK].
Definition is_close (c : char) : bool := mem_char c [RBRACK; RBRACE].

(** The test of the loop on a closing bracket. *)
Definition mismatch (last c : char) : bool :=
  (char_eqb last LBRACE && negb (char_eqb c RBRACE))
  || (char_eqb last LBRACK && negb (char_eqb c RBRACK)).

(** The scanning loop from index [i], with [stack] holding the open
    brackets, innermost first: the index of the bracket that closes the
    outermost one, or [None] when the loop breaks or runs off the end. *)
Fixpoint scan (s : pystr) (i : Z) (stack : list char) : option Z :=
  match s with
  | [] => None
  | c :: r =>
    if is_open c then scan r (i + 1)%Z (c :: stack)
    else if is_close c then
      match stack with
      | [] => None
      | last :: stack' =>
        if mismatch last c then None
        else
          match stack' with
          | [] => Some i
          | _ => scan r (i + 1)%Z stack'
          end
      end
    else scan r (i + 1)%Z stack
  end.

Definition extract_first_json (text : pystr) : option pystr :=
  let text := clean text in
  let start := first_open text in
  if (start =? -1)%Z then None
  else
    match scan (skipn (Z.to_nat start) text) start [] with
    | Some i => Some (slice text (Z.to_nat start) (Z.to_nat (i + 1)))
    | None => None
    end.

(** ** Python values

    The values that [json.loads] builds and that spreadsheet cells hold. *)

Inductive pyfloat :=
| FNaN
| FInf (negative : bool)
| FDec (mantissa exponent : Z).   (* mantissa * 10 ^ exponent *)

Inductive pyval :=
| PNone
| PBool (b : bool)
| PInt (z : Z)
| PFloat (f : pyfloat)
| PStr (s : pystr)
| PList (l : list pyval)
| PDict (d : list (pystr * pyval)).

(** A [dict] with [str] keys keeps its items in insertion order; assigning
    to a key that is present replaces the value in place. *)
Fixpoint dict_get (d : list (pystr * pyval)) (k : pystr) : option pyval :=
  match d with
  | [] => None
  | (k', v) :: r => if str_eqb k' k then Some v else dict_get r k
  end.

Fixpoint dict_set (d : list (pystr * pyval)) (k : pystr) (v : pyval)
  : list (pystr * pyval) :=
  match d with
  | [] => [(k, v)]
  | (k', v') :: r =>
    if str_eqb k' k then (k', v) :: r else (k', v') :: dict_set r k v
  end.

(** [k in d] *)
Definition dict_has (d : list (pystr * pyval)) (k : pystr) : bool :=
  match dict_get d k with Some _ => true | None => false end.

(** Truth value of an object. *)
Definition truthy (v : pyval) : bool :=
  match v with
  | PNone => false
  | PBool b => b
  | PInt z => negb (z =? 0)%Z
  | PFloat (FDec m _) => negb (m =? 0)%Z
  | PFloat _ => true
  | PStr s => nonempty s
  | PList l => match l with [] => false | _ => true end
  | PDict d => match d with [] => false | _ => true end
  end.

(** ** Exceptions *)

Inductive exn :=
| TypeError
| AttributeError
| IndexError
| JSONDecodeError
| ApiError.        (* whatever escapes [call_deepseek_api] *)

Inductive result (A : Type) :=
| Ok (a : A)
| Raise (e : exn).
Arguments Ok {A} a.
Arguments Raise {A} e.

(** [l[i]] on a list. *)
Definition getitem (A : Type) (l : list A) (i : nat) : result A :=
  match nth_error l i with
  | Some x => Ok x
  | None => Raise IndexError
  end.

(** [for x in v]: the items a loop over [v] visits; a dict yields its keys,
    a string its characters. *)
Definition py_iter (v : pyval) : result (list pyval) :=
  match v with
  | PList l => Ok l
  | PDict d => Ok (map (fun kv => PStr (fst kv)) d)
  | PStr s => Ok (map (fun c => PStr [c]) s)
  | _ => Raise TypeError
  end.

(** [obj.get(key, default)]: only a dict has the method. *)
Definition py_get (obj : pyval) (key : pystr) (default : pyval)
  : result pyval :=
  match obj with
  | PDict d =>
    Ok (match dict_get d key with Some v => v | None => default end)
  | _ => Raise AttributeError
  end.

(** ** A model of [json.loads]

    The standard library's decoder on the JSON grammar: objects, arrays,
    strings with their escapes, numbers, [true], [false], [null] and the
    three non-finite literals it accepts; [None] where it raises
    [JSONDecodeError].  Numbers with a fraction or an exponent are kept in
    decimal.  The pipeline below takes the decoder as a parameter; this
    model instantiates it on concrete replies. *)

Definition QUOTE : char := 34%N.
Definition COMMA : char := Eval vm_compute in ch ",".
Definition COLON : char := Eval vm_compute in ch ":".

Definition is_json_ws (c : char) : bool :=
  ((c =? 0x20) || (c =? 0x9) || (c =? 0xA) || (c =? 0xD))%N.

Definition skip_ws (s : pystr) : pystr := dropwhile is_json_ws s.

Definition is_ascii_digit (c : char) : bool := ((0x30 <=? c) && (c <=? 0x39))%N.

Definition hex_value (c : char) : option N :=
  if is_ascii_digit c then Some (c - 0x30)%N
  else if ((0x41 <=? c) && (c <=? 0x46))%N then Some (c - 0x41 + 10)%N
  else if ((0x61 <=? c) && (c <=? 0x66))%N then Some (c - 0x61 + 10)%N
  else None.

Definition hex4 (a b c d : char) : option N :=
  match hex_value a, hex_value b, hex_value c, hex_value d with
  | Some x, Some y, Some z, Some w => Some (x * 4096 + y * 256 + z * 16 + w)%N
  | _, _, _, _ => None
  end.

Definition simple_escape (c : char) : option char :=
  if (c =? 34)%N then Some 34%N              (* quote *)
  else if (c =? 92)%N then Some 92%N         (* backslash *)
  else if (c =? 47)%N then Some 47%N         (* slash *)
  else if (c =? 98)%N then Some 8%N          (* backspace *)
  else if (c =? 102)%N then Some 12%N        (* form feed *)
  else if (c =? 110)%N then Some 10%N        (* line feed *)
  else if (c =? 114)%N then Some 13%N        (* carriage return *)
  else if (c =? 116)%N then Some 9%N         (* tab *)
  else None.

(** The body of a string, after its opening quote: the decoded string and
    the text after the closing quote. *)
Fixpoint scan_string (s : pystr) (acc : pystr) : option (pystr * pystr) :=
  match s with
  | [] => None
  | c :: r =>
    if (c =? 34)%N then Some (rev acc, r)
    else if (c =? 92)%N then
      match r with
      | e :: r1 =>
        if (e =? 117)%N then                 (* u and four hex digits *)
          match r1 with
          | h1 :: h2 :: h3 :: h4 :: r2 =>
            match hex4 h1 h2 h3 h4 with
            | None => None
            | Some hi =>
              if ((0xD800 <=? hi) && (hi <=? 0xDBFF))%N then
                match r2 with
                | b :: x :: g1 :: g2 :: g3 :: g4 :: r3 =>
                  match hex4 g1 g2 g3 g4 with
                  | Some lo =>
                    if ((b =? 92) && (x =? 117)
                        && (0xDC00 <=? lo) && (lo <=? 0xDFFF))%N
                    then
                      scan_string r3
                        ((0x10000 + (hi - 0xD800) * 1024 + (lo - 0xDC00))%N
                           :: acc)
                    else scan_string r2 (hi :: acc)
                  | None => scan_string r2 (hi :: acc)
                  end
                | _ => scan_string r2 (hi :: acc)
                end
              else scan_string r2 (hi :: acc)
            end
          | _ => None
          end
        else
          match simple_escape e with
          | Some x => scan_string r1 (x :: acc)
          | None => None
          end
      | [] => None
      end
    else if (c <? 0x20)%N then None
    else scan_string r (c :: acc)
  end.

(** The longest run of ASCII digits at the head of [s], and the rest. *)
Fixpoint span_digits (s : pystr) : pystr * pystr :=
  match s with
  | c :: r =>
    if is_ascii_digit c then
      let (ds, rest) := span_digits r in (c :: ds, rest)
    else ([], s)
  | [] => ([], [])
  end.

Definition digits_value (ds : pystr) : Z :=
  fold_left (fun acc c => (acc * 10 + Z.of_N (c - 0x30))%Z) ds 0%Z.

(** A number: an optional minus sign, an integer part without leading
    zeros, an optional fraction and an optional exponent; an integer when
    it has neither of the last two. *)
Definition scan_number (s : pystr) : option (pyval * pystr) :=
  let (neg, s1) :=
    match s with
    | c :: r => if (c =? 45)%N then (true, r) else (false, s)
    | [] => (false, s)
    end in
  let int_part :=
    match s1 with
    | c :: r =>
      if (c =? 0x30)%N then Some ([c], r)
      else if is_ascii_digit c then Some (span_digits s1)
      else None
    | [] => None
    end in
  match int_part with
  | None => None
  | Some (ds, s2) =>
    let (frac, s3) :=
      match s2 with
      | c :: r =>
        if (c =? 46)%N then
          match span_digits r with
          | ([], _) => ([], s2)
          | (fs, r') => (fs, r')
          end
        else ([], s2)
      | [] => ([], s2)
      end in
    let '(has_exp, ex, s4) :=
      match s3 with
      | c :: r =>
        if ((c =? 101) || (c =? 69))%N then
          let (eneg, r1) :=
            match r with
            | g :: r' =>
              if (g =? 45)%N then (true, r')
              else if (g =? 43)%N then (false, r') else (false, r)
            | [] => (false, r)
            end in
          match span_digits r1 with
          | ([], _) => (false, 0%Z, s3)
          | (es, r2) =>
            (true, (if eneg then - digits_value es else digits_value es)%Z, r2)
          end
        else (false, 0%Z, s3)
      | [] => (false, 0%Z, s3)
      end in
    let sign (z : Z) := if neg then (- z)%Z else z in
    match frac, has_exp with
    | [], false => Some (PInt (sign (digits_value ds)), s4)
    | _, _ =>
      Some (PFloat (FDec (sign (digits_value (ds ++ frac)))
                      (ex - Z.of_nat (length frac))), s4)
    end
  end.

(** [s] starts with [p]: the rest of [s]. *)
Fixpoint strip_prefix (p s : pystr) : option pystr :=
  match p, s with
  | [], _ => Some s
  | a :: p', b :: s' => if char_eqb a b then strip_prefix p' s' else None
  | _ :: _, [] => None
  end.

Definition literals : list (pystr * pyval) :=
  Eval vm_compute in
  [ (u "null", PNone); (u "true", PBool true); (u "false", PBool false);
    (u "NaN", PFloat FNaN); (u "Infinity", PFloat (FInf false));
    (u "-Infinity", PFloat (FInf true)) ].

Fixpoint scan_literal (ls : list (pystr * pyval)) (s : pystr)
  : option (pyval * pystr) :=
  match ls with
  | [] => None
  | (name, v) :: ls' =>
    match strip_prefix name s with
    | Some rest => Some (v, rest)
    | None => scan_literal ls' s
    end
  end.

Inductive scan_mode :=
| MValue                                         (* at the start of a value *)
| MElements (acc : list pyval)                   (* at an array element *)
| MMembers (acc : list (pystr * pyval)).         (* at an object key *)

Fixpoint scan_once (fuel : nat) (mode : scan_mode) (s : pystr)
  : option (pyval * pystr) :=
  match fuel with
  | O => None
  | S fuel' =>
    match mode with
    | MValue =>
      match s with
      | [] => None
      | c :: r =>
        if (c =? 34)%N then
          match scan_string r [] with
          | Some (str, rest) => Some (PStr str, rest)
          | None => None
          end
        else if char_eqb c LBRACE then
          match skip_ws r with
          | d :: r' =>
            if char_eqb d RBRACE then Some (PDict [], r')
            else scan_once fuel' (MMembers []) (d :: r')
          | [] => None
          end
        else if char_eqb c LBRACK then
          match skip_ws r with
          | d :: r' =>
            if char_eqb d RBRACK then Some (PList [], r')
            else scan_once fuel' (MElements []) (d :: r')
          | [] => None
          end
        else
          match scan_literal literals s with
          | Some res => Some res
          | None => scan_number s
          end
      end
    | MElements acc =>
      match scan_once fuel' MValue s with
      | None => None
      | Some (v, rest) =>
        match skip_ws rest with
        | d :: r' =>
          if char_eqb d COMMA then
            scan_once fuel' (MElements (v :: acc)) (skip_ws r')
          else if char_eqb d RBRACK then Some (PList (rev (v :: acc)), r')
          else None
        | [] => None
        end
      end
    | MMembers acc =>
      match s with
      | q :: r =>
        if (q =? 34)%N then
          match scan_string r [] with
          | None => None
          | Some (key, rest) =>
            match skip_ws rest with
            | d :: r1 =>
              if char_eqb d COLON then
                match scan_once fuel' MValue (skip_ws r1) with
                | None => None
                | Some (v, rest') =>
                  match skip_ws rest' with
                  | e :: r2 =>
                    if char_eqb e COMMA then
                      scan_once fuel' (MMembers (dict_set acc key v))
                        (skip_ws r2)
                    else if char_eqb e RBRACE then
                      Some (PDict (dict_set acc key v), r2)
                    else None
                  | [] => None
                  end
                end
              else None
            | [] => None
            end
          end
        else None
      | [] => None
      end
    end
  end.

Definition json_loads_model (s : pystr) : option pyval :=
  match scan_once (2 * length s + 2) MValue (skip_ws s) with
  | Some (v, rest) =>
    match skip_ws rest with
    | [] => Some v
    | _ => None
    end
  | None => None
  end.

(** JSON text in this file is written with ['] standing for the double
    quote. *)
Definition j (s : string) : pystr :=
  map (fun c => if (c =? 39)%N then QUOTE else c) (u s).

(** ** The annotation pipeline

    Every stage talks to the model through [call_deepseek_api] and decodes
    its reply with [json.loads].  Both are parameters here.  The state of
    the outside world is threaded through the calls, so two calls with the
    same prompt may answer differently.  A call returns the reply text,
    [None] for the failures the function reports itself (no key, transport
    error, no choices), or raises. *)

Inductive prompt :=
| PromptExtract (text : pystr)
| PromptClassify (data_items : list pystr)
| PromptScenarios (text : pystr) (data_items_classified : pyval)
| PromptActions (text : pystr) (scene_tags : list pyval)
    (entities : list pystr).

Definition KEY_ITEM : pystr := Eval vm_compute in u "数据项".
Definition KEY_LEVEL1 : pystr := Eval vm_compute in u "一级类别".
Definition KEY_LEVEL2 : pystr := Eval vm_compute in u "二级类别".
Definition UNCLASSIFIED : pystr := Eval vm_compute in u "未分类".

(** One element of a paragraph's entity list. *)
Record entity_info := {
  e_item : pystr;            (* 数据项 *)
  e_level1 : pyval;          (* 一级类别 *)
  e_level2 : pyval           (* 二级类别 *)
}.

(** One element of a paragraph's relation list. *)
Record relation := {
  r_scene : list pyval;      (* 场景 *)
  r_action : pyval;          (* 关系 *)
  r_item : pyval             (* 数据项 *)
}.

(** The record of one paragraph. *)
Record para_info := {
  p_text : pystr;                  (* 段落 *)
  p_number : nat;                  (* 段号 *)
  p_scene_tags : list pyval;       (* 场景标签 *)
  p_entities : list entity_info;   (* 实体 *)
  p_relations : list relation      (* 关系标注 *)
}.

(** One row of the flat output. *)
Record flat_record := {
  f_policy : pyval;          (* 隐私政策名称 *)
  f_number : nat;            (* 段号 *)
  f_item : pyval;            (* 数据项 *)
  f_level1 : pyval;          (* 一级类别 *)
  f_level2 : pyval;          (* 二级类别 *)
  f_scene1 : pyval;          (* 使用场景层级一 *)
  f_scene2 : pyval;          (* 使用场景层级二 *)
  f_scene3 : pyval;          (* 使用场景层级三 *)
  f_action : pyval           (* 动作 *)
}.

(** One entry of the nested output. *)
Record policy_result := {
  pol_name : pyval;                  (* 隐私政策名称 *)
  pol_content : list para_info       (* 处理后内容 *)
}.

(** One row of the spreadsheet: its index label and the cells of the text
    column and of the name column. *)
Record row := {
  row_index : Z;
  row_policy : pyval;
  row_name : pyval
}.

(** [x == y] for a string [x] and any object [y]. *)
Definition str_eq_val (x : pystr) (y : pyval) : bool :=
  match y with
  | PStr s => str_eqb x s
  | _ => false
  end.

(** The distinct elements of a list of strings. *)
Fixpoint dedup (l : list pystr) : list pystr :=
  match l with
  | [] => []
  | x :: r => if existsb (str_eqb x) r then dedup r else x :: dedup r
  end.

(** [flatten_results] is pure. *)
Definition flatten_relation (policy_name : pyval) (para : para_info)
    (rel : relation) : result flat_record :=
  let scene := r_scene rel in
  let entity := r_item rel in
  let entity_cat :=
    List.find (fun e => str_eq_val (e_item e) entity) (p_entities para) in
  let field (i : nat) : result pyval :=
    if i <? length scene then getitem scene i else Ok (PStr []) in
  match field 0, field 1, field 2 with
  | Ok s1, Ok s2, Ok s3 =>
    Ok {| f_policy := policy_name;
          f_number := p_number para;
          f_item := entity;
          f_level1 :=
            match entity_cat with Some e => e_level1 e | None => PStr [] end;
          f_level2 :=
            match entity_cat with Some e => e_level2 e | None => PStr [] end;
          f_scene1 := s1;
          f_scene2 := s2;
          f_scene3 := s3;
          f_action := r_action rel |}
  | Raise e, _, _ | _, Raise e, _ | _, _, Raise e => Raise e
  end.

(** A loop whose body may raise: the first exception ends it. *)
Fixpoint map_result (A B : Type) (f : A -> result B) (l : list A)
  : result (list B) :=
  match l with
  | [] => Ok []
  | x :: r =>
    match f x with
    | Raise e => Raise e
    | Ok y =>
      match map_result f r with
      | Raise e => Raise e
      | Ok ys => Ok (y :: ys)
      end
    end
  end.

Definition flatten_results (policy_name : pyval)
    (processed_content : list para_info) : result (list flat_record) :=
  match
    map_result
      (fun para_info =>
         map_result (flatten_relation policy_name para_info)
           (p_relations para_info))
      processed_content
  with
  | Ok rows => Ok (concat rows)
  | Raise e => Raise e
  end.

(** The inner loop of [process_policies] over [relations_raw]. *)
Definition relation_of (rel : pyval) : result (list relation) :=
  match rel with
  | PList fields =>
    if 5 <=? length fields then
      match getitem fields 3, getitem fields 4 with
      | Ok action, Ok item =>
        Ok [{| r_scene := firstn 3 fields;
               r_action := action;
               r_item := item |}]
      | Raise e, _ | _, Raise e => Raise e
      end
    else Ok []
  | _ => Ok []
  end.

Definition relations_of (relations_raw : pyval) : result (list relation) :=
  match py_iter relations_raw with
  | Raise e => Raise e
  | Ok items =>
    match map_result relation_of items with
    | Ok rs => Ok (concat rs)
    | Raise e => Raise e
    end
  end.

Section Pipeline.

(** The outside world as the oracle sees it. *)
Variable world : Type.
Variable call_deepseek_api : prompt -> world -> result (option pystr) * world.
Variable json_loads : pystr -> option pyval.

(** A computation that reads the oracle and may raise. *)
Definition M (A : Type) : Type := world -> result A * world.

Definition ret (A : Type) (a : A) : M A := fun w => (Ok a, w).

Definition raise {A : Type} (e : exn) : M A := fun w => (Raise e, w).

Definition bind (A B : Type) (m : M A) (f : A -> M B) : M B :=
  fun w =>
    match m w with
    | (Ok a, w') => f a w'
    | (Raise e, w') => (Raise e, w')
    end.

(** [try: body except Exception: handler] *)
Definition try_except (A : Type) (body : M A) (handler : exn -> M A) : M A :=
  fun w =>
    match body w with
    | (Ok a, w') => (Ok a, w')
    | (Raise e, w') => handler e w'
    end.

Definition lift (A : Type) (r : result A) : M A := fun w => (r, w).

Notation "x <- m ;; k" := (bind m (fun x => k))
  (at level 61, m at next level, right associativity).

(** Truth value of a reply: neither [None] nor empty. *)
Definition has_content (response : option pystr) : bool :=
  match response with
  | Some s => nonempty s
  | None => false
  end.

(** The set comprehension of [extract_personal_data], listed.  Python
    leaves the order of the resulting list open; one occurrence of
    each item is kept here, in the order of the reply. *)
Definition clean_items (items : list pyval) : list pystr :=
  dedup
    (flat_map
       (fun i =>
          match i with
          | PStr s => if nonempty (strip s) then [strip s] else []
          | _ => []
          end)
       items).

Definition extract_personal_data (text : pystr) : M (list pystr) :=
  response_content <- call_deepseek_api (PromptExtract text) ;;
  match response_content with
  | Some response =>
    if nonempty response then
      (* the body of the try block; its only exception is a decoding
         error, which the handler swallows *)
      match extract_first_json response with
      | Some json_str =>
        if nonempty json_str then
          match json_loads json_str with
          | Some (PList items) => ret (clean_items items)
          | Some _ => ret []
          | None => ret []
          end
        else ret []
      | None => ret []
      end
    else ret []
  | None => ret []
  end.

(** [robust_json_loads]: decoding [None] is a [TypeError], and the
    handler's own slice of [None] raises it again; a decoding error is
    raised again after the fragment is saved. *)
Definition robust_json_loads (json_str : pystr) : result pyval :=
  match extract_first_json json_str with
  | None => Raise TypeError
  | Some fragment =>
    match json_loads fragment with
    | Some v => Ok v
    | None => Raise JSONDecodeError
    end
  end.

Definition classify_data_items (data_items : list pystr) : M pyval :=
  match data_items with
  | [] => ret (PDict [])
  | _ =>
    response_content <- call_deepseek_api (PromptClassify data_items) ;;
    match response_content with
    | Some response =>
      if nonempty response then
        match extract_first_json response with
        | Some json_str =>
          if nonempty json_str then
            match robust_json_loads json_str with
            | Ok (PDict classified_data) => ret (PDict classified_data)
            | Ok _ => ret (PDict [])
            | Raise e => raise e            (* the handler raises again *)
            end
          else ret (PDict [])
        | None => ret (PDict [])
        end
      else ret (PDict [])
    | None => ret (PDict [])
    end
  end.

Definition recognize_scenarios_and_build_relations (text : pystr)
    (data_items_classified : pyval) : M pyval :=
  response_content <-
    call_deepseek_api (PromptScenarios text data_items_classified) ;;
  if has_content response_content then
    match response_content with
    | Some response =>
      triplets <- lift (robust_json_loads response) ;;
      ret (if truthy triplets then triplets else PList [])
    | None => ret (PList [])
    end
  else ret (PList []).

(** [isinstance(t, list) and len(t) >= n] *)
Definition is_list_of_at_least (n : nat) (t : pyval) : bool :=
  match t with
  | PList l => n <=? length l
  | _ => false
  end.

Definition get_scene_tags (para : pystr) : M (list pyval) :=
  scene_triplets <- recognize_scenarios_and_build_relations para (PDict []) ;;
  items <- lift (py_iter scene_triplets) ;;
  ret (filter (is_list_of_at_least 2) items).

Definition extract_entities (para : pystr) : M (list pystr) :=
  response <- extract_personal_data para ;;
  ret (match response with [] => [] | _ => response end).

Definition unclassified : pyval :=
  PDict [(KEY_LEVEL1, PStr UNCLASSIFIED); (KEY_LEVEL2, PStr UNCLASSIFIED)].

(** [{ent: {...} for ent in entities}] *)
Definition fallback (entities : list pystr) : list (pystr * pyval) :=
  fold_left (fun d ent => dict_set d ent unclassified) entities [].

(** [response and isinstance(response, dict) and all(ent in response ...)] *)
Definition complete (entities : list pystr) (response : pyval) : bool :=
  truthy response
  && match response with
     | PDict d => forallb (dict_has d) entities
     | _ => false
     end.

(** The loop [for _ in range(attempts)] of [classify_entities] and the
    fallback after it. *)
Fixpoint classify_attempts (attempts : nat) (entities : list pystr)
  : M pyval :=
  match attempts with
  | O => ret (PDict (fallback entities))
  | S attempts' =>
    response <- classify_data_items entities ;;
    if complete entities response then ret response
    else classify_attempts attempts' entities
  end.

Definition classify_entities (entities : list pystr) : M pyval :=
  match entities with
  | [] => ret (PDict [])
  | _ => classify_attempts 2 entities
  end.

Definition build_entity (classified : pyval) (ent : pystr)
  : result entity_info :=
  let level (key : pystr) : result pyval :=
    match py_get classified ent (PDict []) with
    | Ok inner => py_get inner key (PStr [])
    | Raise e => Raise e
    end in
  match level KEY_LEVEL1, level KEY_LEVEL2 with
  | Ok l1, Ok l2 => Ok {| e_item := ent; e_level1 := l1; e_level2 := l2 |}
  | Raise e, _ | _, Raise e => Raise e
  end.

Definition build_entity_list (entities : list pystr) (classified : pyval)
  : result (list entity_info) :=
  map_result (build_entity classified) entities.

Definition analyze_actions (text : pystr) (scene_tags : list pyval)
    (entities : list pystr) : M pyval :=
  match scene_tags, entities with
  | [], _ | _, [] => ret (PList [])
  | _, _ =>
    response <- call_deepseek_api (PromptActions text scene_tags entities) ;;
    match response with
    | Some response =>
      if nonempty response then
        match extract_first_json response with
        | Some json_str =>
          if nonempty json_str then
            match robust_json_loads json_str with
            | Ok v => ret v
            | Raise _ => ret (PList [])     (* the handler returns [] *)
            end
          else ret (PList [])
        | None => ret (PList [])
        end
      else ret (PList [])
    | None => ret (PList [])
    end
  end.

(** The body of the try block of [process_policies] for paragraph [i]
    (counted from 0). *)
Definition process_paragraph (i : nat) (para : pystr) : M para_info :=
  scene_tags <- get_scene_tags para ;;
  entities <- extract_entities para ;;
  classified <- classify_entities entities ;;
  entity_list <- lift (build_entity_list entities classified) ;;
  relations_raw <- analyze_actions para scene_tags entities ;;
  relations <- lift (relations_of relations_raw) ;;
  ret {| p_text := para;
         p_number := i + 1;
         p_scene_tags := scene_tags;
         p_entities := entity_list;
         p_relations := relations |}.

(** [for i, para in enumerate(paragraphs)], from index [i] on, with the
    try block around its body. *)
Fixpoint process_paragraphs (i : nat) (paragraphs : list pystr)
    (processed_content : list para_info) : M (list para_info) :=
  match paragraphs with
  | [] => ret processed_content
  | para :: rest =>
    processed_content <-
      try_except
        (info <- process_paragraph i para ;;
         ret (processed_content ++ [info]))
        (fun _ => ret processed_content) ;;
    process_paragraphs (S i) rest processed_content
  end.

(** [f"政策_{index+1}"] *)
Definition default_name (index : Z) : pystr :=
  u "政策_" ++ u (NilZero.string_of_int (Z.to_int (index + 1))).

(** The loop of [process_policies] over the rows of the table, with the
    two lists it fills; [name_column] tells whether the table has a
    [name] column. *)
Fixpoint process_rows (name_column : bool) (rows : list row)
    (results : list policy_result) (final_results : list flat_record)
  : M (list policy_result * list flat_record) :=
  match rows with
  | [] => ret (results, final_results)
  | r :: rest =>
    match row_policy r with
    | PStr policy_text =>
      if nonempty (strip policy_text) then
        let policy_name :=
          if name_column then row_name r
          else PStr (default_name (row_index r)) in
        let paragraphs := split_by_detected_level policy_text in
        processed_content <- process_paragraphs 0 paragraphs [] ;;
        flat <- lift (flatten_results policy_name processed_content) ;;
        process_rows name_column rest
          (results ++ [{| pol_name := policy_name;
                          pol_content := processed_content |}])
          (final_results ++ flat)
      else process_rows name_column rest results final_results
    | _ => process_rows name_column rest results final_results
    end
  end.

(** [process_policies] once the table is loaded: the contents of the two
    files it saves. *)
Definition process_policies (name_column : bool) (rows : list row)
  : M (list policy_result * list flat_record) :=
  process_rows name_column rows [] [].

(** What the paragraph loop records, paragraph by paragraph, from index
    [i] and world [w]: the record of each paragraph whose pipeline
    returns, nothing for one whose pipeline raises; either way the next
    paragraph runs in the world the previous one left. *)
Inductive Processed : nat -> list pystr -> world -> list para_info ->
                      world -> Prop :=
| Processed_nil i w : Processed i [] w [] w
| Processed_recorded i para rest w info w1 recorded w2 :
    process_paragraph i para w = (Ok info, w1) ->
    Processed (S i) rest w1 recorded w2 ->
    Processed i (para :: rest) w (info :: recorded) w2
| Processed_skipped i para rest w e w1 recorded w2 :
    process_paragraph i para w = (Raise e, w1) ->
    Processed (S i) rest w1 recorded w2 ->
    Processed i (para :: rest) w recorded w2.

(** The worlds in which [classify_entities], started in [w], makes an
    attempt: [w] itself, and the world an incomplete first attempt
    leaves. *)
Definition attempt_world (entities : list pystr) (w w0 : world) : Prop :=
  w0 = w \/
  exists response,
    classify_data_items entities w = (Ok response, w0) /\
    complete entities response = false.

(** A row that [process_policies] works on: its text cell is a string
    with more than white space. *)
Definition usable_row (r : row) : bool :=
  match row_policy r with
  | PStr policy_text => nonempty (strip policy_text)
  | _ => false
  end.

(** The name [process_policies] gives the policy of a row. *)
Definition policy_name_of (name_column : bool) (r : row) : pyval :=
  if name_column then row_name r else PStr (default_name (row_index r)).

(** What the row loop records, row by row: nothing for a row that is not
    usable, and for a usable one the entry of its policy with the records
    of its paragraphs. *)
Inductive Policies (name_column : bool) :
  list row -> world -> list policy_result -> world -> Prop :=
| Policies_nil w : Policies name_column [] w [] w
| Policies_skipped r rest w results w' :
    usable_row r = false ->
    Policies name_column rest w results w' ->
    Policies name_column (r :: rest) w results w'
| Policies_processed r policy_text rest w recorded w1 results w2 :
    row_policy r = PStr policy_text ->
    usable_row r = true ->
    Processed 0 (split_by_detected_level policy_text) w recorded w1 ->
    Policies name_column rest w1 results w2 ->
    Policies name_column (r :: rest) w
      ({| pol_name := policy_name_of name_column r;
          pol_content := recorded |} :: results) w2.

End Pipeline.

(** The guarded read [scene[i] if len(scene) > i else ""]. *)
Definition scene_field (scene : list pyval) (i : nat) : pyval :=
  nth i scene (PStr []).

(** The flat record of one relation. *)
Definition flat_of (policy_name : pyval) (para : para_info) (rel : relation)
  : flat_record :=
  let entity_cat :=
    List.find (fun e => str_eq_val (e_item e) (r_item rel))
      (p_entities para) in
  {| f_policy := policy_name;
     f_number := p_number para;
     f_item := r_item rel;
     f_level1 :=
       match entity_cat with Some e => e_level1 e | None => PStr [] end;
     f_level2 :=
       match entity_cat with Some e => e_level2 e | None => PStr [] end;
     f_scene1 := scene_field (r_scene rel) 0;
     f_scene2 := scene_field (r_scene rel) 1;
     f_scene3 := scene_field (r_scene rel) 2;
     f_action := r_action rel |}.

(** The flat records of the paragraphs of one policy. *)
Definition flat_of_content (policy_name : pyval)
    (processed_content : list para_info) : list flat_record :=
  flat_map (fun para => map (flat_of policy_name para) (p_relations para))
    processed_content.

Definition flat_of_policy (p : policy_result) : list flat_record :=
  flat_of_content (pol_name p) (pol_content p).

Definition not_open (c : char) : bool := negb (is_open c).

(** A character that is no bracket. *)
Definition plain (c : char) : Prop := is_open c = false /\ is_close c = false.

(** A text without opening bracket. *)
Definition no_open (s : pystr) : Prop := Forall (fun c => is_open c = false) s.


(** ** Bracket structure

    What the scanning loop of [extract_first_json] recognises: every brace
    and square bracket counts, wherever it stands. *)


(** The bracket that closes [o]. *)
Definition closer (o : char) : char :=
  if char_eqb o LBRACE then RBRACE else RBRACK.

(** A run of characters that are not brackets and of bracketed groups, each
    closed by the bracket of its own type. *)
Inductive Items : pystr -> Prop :=
| Items_nil : Items []
| Items_char c w :
    is_open c = false -> is_close c = false -> Items w -> Items (c :: w)
| Items_group o g w :
    is_open o = true -> Items g -> Items w ->
    Items (o :: g ++ closer o :: w).

(** A balanced value: an opening bracket, items, its closing bracket. *)
Inductive Value : pystr -> Prop :=
| Value_intro o g :
    is_open o = true -> Items g -> Value (o :: g ++ [closer o]).

(** The balance check, by running the scan: [v] starts with an opening
    bracket and the scan from it ends at the last character of [v]. *)
Definition balanced (v : pystr) : bool :=
  match v with
  | [] => false
  | o :: _ =>
    is_open o
    && match scan v 0%Z [] with
       | Some i => (i =? Z.of_nat (length v) - 1)%Z
       | None => false
       end
  end.

(** A text that takes a stack of open brackets (innermost first) down to
    empty, and not before its last character. *)
Inductive Closes : list char -> pystr -> Prop :=
| Closes_last o g :
    is_open o = true -> Items g -> Closes [o] (g ++ [closer o])
| Closes_more o st g w :
    is_open o = true -> st <> [] -> Items g -> Closes st w ->
    Closes (o :: st) (g ++ closer o :: w).

(** [a] is a subsequence of [b]. *)
Fixpoint is_subsequence (a b : pystr) : bool :=
  match b with
  | [] => match a with [] => true | _ => false end
  | y :: b' =>
    match a with
    | [] => true
    | x :: a' =>
      if char_eqb x y then is_subsequence a' b' else is_subsequence a b'
    end
  end.

(** ** Sample inputs *)

(** The numbered document of the design's scenario. *)
Definition doc_numbered : pystr :=
  u "1. 登录
用户使用手机号登录时收集手机号码。
2. 支付
用户支付时使用银行卡号。".

Definition doc_numbered_para1 : pystr :=
  u "1. 登录
用户使用手机号登录时收集手机号码。".

Definition doc_numbered_para2 : pystr :=
  u "2. 支付
用户支付时使用银行卡号。".

(** A scripted oracle: the replies to come, one per call, whatever the
    prompt; after the last one every call fails. *)
Definition script := list (result (option pystr)).

Definition scripted (p : prompt) (w : script)
  : result (option pystr) * script :=
  match w with
  | [] => (Ok None, [])
  | r :: w' => (r, w')
  end.

Definition reply (s : pystr) : result (option pystr) := Ok (Some s).

(** The item list and the replies of the classifier scenario of the design:
    a reply that resolves one of the two items, and a reply with a key
    beyond the items asked for. *)
Definition demo_entities : list pystr := [u "姓名"; u "设备型号"].

Definition reply_partial : pystr :=
  j "{'姓名': {'一级类别':'个人基本资料','二级类别':'个人基本资料'}}".

Definition reply_extra : pystr :=
  j "{'姓名': {'一级类别':'个人基本资料','二级类别':'个人基本资料'}, '昵称': {'一级类别':'网络身份标识信息','二级类别':'网络身份标识信息'}}".

Definition basic_profile : pyval :=
  PDict [(KEY_LEVEL1, PStr (u "个人基本资料"));
         (KEY_LEVEL2, PStr (u "个人基本资料"))].

(** A paragraph and the four replies of its pipeline: a two-level scenario
    tag, one entity, its classification, and one action entry in the
    five-field format of the action prompt. *)
Definition demo_para : pystr := u "用户使用手机号登录时收集手机号码。".

Definition demo_script : script :=
  [ reply (j "[['账户与身份管理','登录与注册']]");
    reply (j "['手机号码']");
    reply (j "{'手机号码': {'一级类别':'个人基本资料','二级类别':'个人基本资料'}}");
    reply (j "[['账户与身份管理','登录与注册','','收集','手机号码']]") ].

Definition demo_tag : pyval :=
  PList [PStr (u "账户与身份管理"); PStr (u "登录与注册")].

Definition demo_relation : relation :=
  {| r_scene := [PStr (u "账户与身份管理"); PStr (u "登录与注册"); PStr []];
     r_action := PStr (u "收集");
     r_item := PStr (u "手机号码") |}.

Definition demo_info : para_info :=
  {| p_text := demo_para;
     p_number := 1;
     p_scene_tags := [demo_tag];
     p_entities :=
       [{| e_item := u "手机号码";
           e_level1 := PStr (u "个人基本资料");
           e_level2 := PStr (u "个人基本资料") |}];
     p_relations := [demo_relation] |}.

(** A paragraph record whose only triple names an item that is not among
    its entities. *)
Definition stray_info : para_info :=
  {| p_text := demo_para;
     p_number := 1;
     p_scene_tags := [demo_tag];
     p_entities :=
       [{| e_item := u "手机号码";
           e_level1 := PStr (u "个人基本资料");
           e_level2 := PStr (u "个人基本资料") |}];
     p_relations :=
       [{| r_scene := [PStr (u "账户与身份管理"); PStr (u "登录与注册")];
           r_action := PStr (u "收集");
           r_item := PStr (u "银行卡号") |}] |}.

(** Rows of a table: a usable one, an empty cell read as NaN, a cell of
    white space. *)
Definition row_text : row :=
  {| row_index := 0; row_policy := PStr demo_para; row_name := PNone |}.

Definition row_nan : row :=
  {| row_index := 1; row_policy := PFloat FNaN; row_name := PNone |}.

Definition row_blank : row :=
  {| row_index := 2; row_policy := PStr (u "  
 "); row_name := PNone |}.

(** ** Counting the oracle's calls

    The oracle with a counter beside its world: every call adds one. *)
Definition counted (world : Type)
    (api : prompt -> world -> result (option pystr) * world)
  : prompt -> world * nat -> result (option pystr) * (world * nat) :=
  fun p wn =>
    let (r, w') := api p (fst wn) in (r, (w', S (snd wn))).

(** A computation over the counted oracle that makes between [lo] and [hi]
    calls, whatever it returns. *)
Definition makes_calls (world A : Type) (lo hi : nat)
    (m : world * nat -> result A * (world * nat)) : Prop :=
  forall w n, exists r w' k, m (w, n) = (r, (w', n + k)) /\ lo <= k <= hi.

(** ** What a pattern cannot do without

    [needs Q r]: every match of [r] consumes a character that satisfies
    [Q]. *)
Fixpoint needs (Q : char -> bool) (r : regex) : Prop :=
  match r with
  | REmpty | RBol | RAny | RStar _ | ROpt _ => False
  | RChar c => Q c = true
  | RSet items => forall c, class_matches items c = true -> Q c = true
  | RSeq a b => needs Q a \/ needs Q b
  | RAlt a b => needs Q a /\ needs Q b
  | RPlus a => needs Q a
  end.

(** The characters no numbering marker of levels 1 to 3 does without: a
    decimal digit or a Chinese numeral. *)
Definition is_marker_char (c : char) : bool :=
  is_decimal c || mem_char c cn_numerals.

(** The code points of [py_isspace]. *)
Definition space_points : list char :=
  [0x9; 0xA; 0xB; 0xC; 0xD; 0x1C; 0x1D; 0x1E; 0x1F; 0x20; 0x85; 0xA0;
   0x1680; 0x2000; 0x2001; 0x2002; 0x2003; 0x2004; 0x2005; 0x2006; 0x2007;
   0x2008; 0x2009; 0x200A; 0x2028; 0x2029; 0x202F; 0x205F; 0x3000]%N.

(** A paragraph as the splitter returns it: not empty, no white space at
    either end, a contiguous part of the text. *)
Definition trimmed_part (text p : pystr) : Prop :=
  p <> [] /\ strip p = p /\ exists a b, text = a ++ p ++ b.

(** [isinstance(v, dict)] *)
Definition is_dict (v : pyval) : bool :=
  match v with PDict _ => true | _ => false end.

(** The entity entry of an item that fell back to the sentinel pair. *)
Definition unclassified_entity (ent : pystr) : entity_info :=
  {| e_item := ent;
     e_level1 := PStr UNCLASSIFIED;
     e_level2 := PStr UNCLASSIFIED |}.

(** ** [build_relations]

    The cross product of the scenario tags, each a list as [get_scene_tags]
    returns them, and the entities, with the fixed action. *)
Definition COLLECT : pystr := Eval vm_compute in u "收集".

Definition build_relations (scene_tags : list (list pyval))
    (entities : list pystr) : list relation :=
  flat_map
    (fun scene =>
       map (fun ent =>
              {| r_scene := scene;
                 r_action := PStr COLLECT;
                 r_item := PStr ent |})
         entities)
    scene_tags.

(** ** [get_policy_column]

    The column labels are objects; the text of a label in lower case,
    [str(col).lower()], is a parameter.  [None] stands for the
    [ValueError]. *)

(** [needle in hay] for strings. *)
Fixpoint contains (needle hay : pystr) {struct hay} : bool :=
  match strip_prefix needle hay with
  | Some _ => true
  | None =>
    match hay with
    | [] => false
    | _ :: rest => contains needle rest
    end
  end.

Definition POLICY : pystr := Eval vm_compute in u "policy".
Definition TEXT : pystr := Eval vm_compute in u "text".
Definition CONTENT : pystr := Eval vm_compute in u "content".

Section PolicyColumn.

Variable lowered : pyval -> pystr.

(** The test of the list comprehension. *)
Definition likely_column (col : pyval) : bool :=
  contains POLICY (lowered col) || contains TEXT (lowered col)
  || contains CONTENT (lowered col).

Definition get_policy_column (columns : list pyval) : option pyval :=
  if existsb (str_eq_val POLICY) columns then Some (PStr POLICY)
  else
    match filter likely_column columns with
    | col :: _ => Some col
    | [] => None
    end.

End PolicyColumn.

(** Lower case of the ASCII letters, for labels written in ASCII. *)
Definition ascii_lowered (col : pyval) : pystr :=
  match col with
  | PStr s =>
    map (fun c => if ((0x41 <=? c) && (c <=? 0x5A))%N then (c + 32)%N else c) s
  | _ => []
  end.

(** * Properties *)

(** ** Strings *)

Lemma str_eqb_eq (a b : pystr) : str_eqb a b = true <-> a = b.
Proof.
  revert b; induction a as [|x a IH]; intros [|y b]; simpl; split;
    try congruence; try reflexivity.
  - intros H. apply andb_true_iff in H as [H1 H2].
    apply N.eqb_eq in H1. apply IH in H2. congruence.
  - intros H. injection H as -> ->. apply andb_true_iff. split.
    + apply N.eqb_refl.
    + now apply IH.
Qed.

Lemma str_eqb_refl (a : pystr) : str_eqb a a = true.
Proof. now apply str_eqb_eq. Qed.


Lemma dropwhile_split (p : char -> bool) (s : pystr) :
  exists d, s = d ++ dropwhile p s /\ Forall (fun c => p c = true) d.
Proof.
  induction s as [|c r IH]; simpl.
  - exists []. split; [reflexivity | constructor].
  - destruct (p c) eqn:Hc.
    + destruct IH as (d & Hd & Hall).
      exists (c :: d). split.
      * simpl. now rewrite <- Hd.
      * now constructor.
    + exists []. split; [reflexivity | constructor].
Qed.

Lemma dropwhile_app_stop (p : char -> bool) (a r : pystr) (c : char) :
  p c = false -> dropwhile p (a ++ c :: r) = dropwhile p a ++ c :: r.
Proof.
  intros Hc. induction a as [|x a IH]; simpl.
  - now rewrite Hc.
  - destruct (p x); [exact IH | reflexivity].
Qed.

(** Stripping around a character that stays: a suffix of what stands
    before it and a prefix of what stands after it are kept. *)
Lemma strip_by_shape (p : char -> bool) (pre rest : pystr) (o : char) :
  p o = false ->
  exists d pre' kept dropped,
    pre = d ++ pre' /\ rest = kept ++ dropped /\
    Forall (fun c => p c = true) dropped /\
    strip_by p (pre ++ o :: rest) = pre' ++ o :: kept.
Proof.
  intros Ho. unfold strip_by.
  rewrite dropwhile_app_stop by assumption.
  destruct (dropwhile_split p pre) as (d & Hd & _).
  set (pre' := dropwhile p pre) in *.
  replace (rev (pre' ++ o :: rest)) with (rev rest ++ o :: rev pre').
  2:{ rewrite rev_app_distr. simpl. now rewrite <- app_assoc. }
  rewrite dropwhile_app_stop by assumption.
  destruct (dropwhile_split p (rev rest)) as (t & Ht & Hall).
  set (x := dropwhile p (rev rest)) in *.
  exists d, pre', (rev x), (rev t). repeat split.
  - exact Hd.
  - rewrite <- rev_app_distr, <- Ht. now rewrite rev_involutive.
  - apply Forall_forall. intros c Hin. apply in_rev in Hin.
    rewrite Forall_forall in Hall. now apply Hall.
  - rewrite rev_app_distr. simpl. rewrite rev_involutive.
    now rewrite <- app_assoc.
Qed.

(** ** The matcher *)

Lemma star_loop_consumes (P : char -> bool) (A : Type)
    (step : nat -> pystr -> (nat -> pystr -> option A) -> option A)
    (k : nat -> pystr -> option A) :
  consumes P step ->
  forall fuel pos s x,
    star_loop step k fuel pos s = Some x ->
    exists m s',
      s = m ++ s' /\ Forall (fun c => P c = true) m /\
      k (pos + length m) s' = Some x.
Proof.
  intros Hstep. induction fuel as [|fuel IH]; intros pos s x H; simpl in H.
  - exists [], s. simpl. rewrite Nat.add_0_r. auto.
  - destruct (step pos s _) eqn:Hs.
    + injection H as ->.
      apply Hstep in Hs as (m & s' & -> & Hm & Hk).
      destruct (Nat.eqb (pos + length m) pos); [discriminate|].
      apply IH in Hk as (m2 & s2 & -> & Hm2 & Hk).
      exists (m ++ m2), s2. rewrite <- app_assoc. repeat split.
      * now apply Forall_app.
      * rewrite length_app, Nat.add_assoc. exact Hk.
    + exists [], s. simpl. rewrite Nat.add_0_r. auto.
Qed.

Lemma rmatch_consumes (P : char -> bool) (A : Type) (r : regex) :
  leaves P r -> consumes P (@rmatch A r).
Proof.
  induction r as [ |c|items| | |a IHa b IHb|a IHa b IHb|a IHa|a IHa|a IHa];
    intros Hl pos s k x H; simpl in *.
  - exists [], s. simpl. rewrite Nat.add_0_r. auto.
  - destruct s as [|d s']; [discriminate|].
    destruct (char_eqb d c) eqn:E; [|discriminate].
    apply N.eqb_eq in E. subst d.
    exists [c], s'. simpl. rewrite Nat.add_1_r. auto.
  - destruct s as [|d s']; [discriminate|].
    destruct (class_matches items d) eqn:E; [|discriminate].
    exists [d], s'. simpl. rewrite Nat.add_1_r. auto.
  - destruct s as [|d s']; [discriminate|].
    destruct (char_eqb d LF) eqn:E; [discriminate|].
    exists [d], s'. simpl. rewrite Nat.add_1_r. auto.
  - destruct (Nat.eqb pos 0); [|discriminate].
    exists [], s. simpl. rewrite Nat.add_0_r. auto.
  - destruct Hl as [Ha Hb].
    apply (IHa Ha) in H as (m & s' & -> & Hm & H).
    apply (IHb Hb) in H as (m2 & s2 & -> & Hm2 & H).
    exists (m ++ m2), s2. rewrite <- app_assoc. repeat split.
    + now apply Forall_app.
    + rewrite length_app, Nat.add_assoc. exact H.
  - destruct Hl as [Ha Hb].
    destruct (rmatch a pos s k) eqn:E.
    + injection H as ->. now apply (IHa Ha) in E.
    + now apply (IHb Hb) in H.
  - eapply star_loop_consumes in H; [exact H | exact (IHa Hl)].
  - apply (IHa Hl) in H as (m & s' & -> & Hm & H).
    eapply star_loop_consumes in H; [|exact (IHa Hl)].
    destruct H as (m2 & s2 & -> & Hm2 & H).
    exists (m ++ m2), s2. rewrite <- app_assoc. repeat split.
    + now apply Forall_app.
    + rewrite length_app, Nat.add_assoc. exact H.
  - destruct (rmatch a pos s k) eqn:E.
    + injection H as ->. now apply (IHa Hl) in E.
    + exists [], s. simpl. rewrite Nat.add_0_r. auto.
Qed.

(** A pattern that starts with [^] matches at offset 0 only. *)
Lemma match_at_bol (b : regex) (must_advance : bool) (pos : nat) (s : pystr) :
  pos <> 0 -> match_at (RSeq RBol b) must_advance pos s = None.
Proof.
  intros Hpos. unfold match_at. simpl.
  destruct pos; [congruence | reflexivity].
Qed.

Lemma finditer_from_bol (b : regex) (fuel : nat) :
  forall must_advance pos s,
    pos <> 0 -> finditer_from (RSeq RBol b) fuel must_advance pos s = [].
Proof.
  induction fuel as [|fuel IH]; intros ma pos s Hpos; simpl.
  - reflexivity.
  - rewrite match_at_bol by assumption.
    destruct s as [|c s']; [reflexivity|].
    apply IH. discriminate.
Qed.

(** ** JsonRecoverer *)

Lemma fence_leaves : leaves not_open fence.
Proof.
  unfold fence, ci_letter. simpl.
  repeat split; try reflexivity;
    intros c H; unfold class_matches in H; simpl in H;
    unfold char_eqb in H;
    repeat (apply orb_true_iff in H as [H|H];
            [apply N.eqb_eq in H; subst c; reflexivity|]);
    discriminate.
Qed.

Lemma rmatch_char_seq (A : Type) (c : char) (b : regex) (pos : nat)
    (s : pystr) (k : nat -> pystr -> option A) (x : A) :
  rmatch (RSeq (RChar c) b) pos s k = Some x ->
  exists s', s = c :: s' /\ rmatch b (S pos) s' k = Some x.
Proof.
  simpl. destruct s as [|d s']; [discriminate|].
  destruct (char_eqb d c) eqn:E; [|discriminate].
  apply N.eqb_eq in E. subst d. intros H. now exists s'.
Qed.

(** The fence pattern matches a non-empty prefix that holds no opening
    bracket. *)
Lemma fence_match (s : pystr) (e : nat) :
  match_at fence false 0 s = Some e ->
  exists m s',
    s = m ++ s' /\ Forall (fun c => not_open c = true) m /\
    e = length m /\ e <> 0.
Proof.
  unfold match_at, fence. intros H.
  change (rmatch (RSeq RBol ?b) 0 s ?k) with (rmatch b 0 s k) in H.
  apply rmatch_char_seq in H as (s0 & -> & H).
  eapply rmatch_consumes in H.
  2:{ pose proof fence_leaves as L. unfold fence in L.
      destruct L as (_ & _ & L). exact L. }
  destruct H as (m & s' & -> & Hm & Hk).
  simpl in Hk. injection Hk as <-.
  exists (BACKTICK :: m), s'.
  split; [reflexivity|].
  split; [constructor; [reflexivity | exact Hm]|].
  split; [reflexivity | discriminate].
Qed.

Lemma re_sub_fence (s : pystr) :
  exists m, s = m ++ re_sub fence [] s /\ Forall (fun c => not_open c = true) m.
Proof.
  unfold re_sub, finditer.
  replace (2 * length s + 2) with (S (2 * length s + 1)) by lia.
  simpl finditer_from.
  destruct (match_at fence false 0 s) as [e|] eqn:E.
  - apply fence_match in E as (m & s' & -> & Hm & -> & Hne).
    unfold fence at 1. rewrite finditer_from_bol by assumption.
    simpl. unfold slice. simpl.
    exists m. split; [|exact Hm].
    rewrite skipn_app, skipn_all, Nat.sub_diag. reflexivity.
  - destruct s as [|c s'].
    + exists []. split; [reflexivity | constructor].
    + unfold fence. rewrite finditer_from_bol by discriminate.
      exists []. split; [reflexivity | constructor].
Qed.

Lemma isspace_not_bracket (c : char) :
  py_isspace c = true -> is_open c = false /\ is_close c = false.
Proof.
  intros H. unfold is_open, is_close, mem_char, char_eqb. simpl.
  destruct (N.eqb_spec c LBRACE) as [->|_]; [discriminate|].
  destruct (N.eqb_spec c LBRACK) as [->|_]; [discriminate|].
  destruct (N.eqb_spec c RBRACK) as [->|_]; [discriminate|].
  destruct (N.eqb_spec c RBRACE) as [->|_]; [discriminate|].
  split; reflexivity.
Qed.

Lemma fence_chars_not_bracket (c : char) :
  mem_char c [BACKTICK; ch " "; LF] = true ->
  is_open c = false /\ is_close c = false.
Proof.
  unfold mem_char, char_eqb. simpl. intros H.
  repeat (apply orb_true_iff in H as [H|H];
          [apply N.eqb_eq in H; subst c; split; reflexivity|]).
  discriminate.
Qed.

Lemma no_open_suffix (d s : pystr) : no_open (d ++ s) -> no_open s.
Proof. unfold no_open. intros H. now apply Forall_app in H. Qed.

(** A prefix without opening bracket of a text stops before its first
    opening bracket. *)
Lemma prefix_before_open (pre rest m s : pystr) (o : char) :
  is_open o = true -> no_open m ->
  pre ++ o :: rest = m ++ s ->
  exists pre', pre = m ++ pre' /\ s = pre' ++ o :: rest.
Proof.
  intros Ho Hm Heq. apply app_eq_app in Heq as (l & [[-> ->] | [-> Hl]]).
  - exists l. split; reflexivity.
  - destruct l as [|c l].
    + exists []. simpl in Hl. subst s. simpl.
      now rewrite !app_nil_r.
    + simpl in Hl. injection Hl as -> ->.
      apply Forall_app in Hm as [_ Hm]. inversion Hm; congruence.
Qed.

(** The clean-up keeps the first opening bracket; before it a suffix of
    what stood there, after it everything up to a run of plain characters
    at the very end. *)
Lemma clean_shape (pre rest : pystr) (o : char) :
  no_open pre -> is_open o = true ->
  exists pre' kept dropped,
    no_open pre' /\ rest = kept ++ dropped /\ Forall plain dropped /\
    clean (pre ++ o :: rest) = pre' ++ o :: kept.
Proof.
  intros Hpre Ho. unfold clean, strip, strip_chars.
  destruct (@strip_by_shape py_isspace pre rest o)
    as (d1 & pre1 & kept1 & drop1 & -> & -> & Hd1 & ->).
  { destruct (py_isspace o) eqn:E; [|reflexivity].
    apply isspace_not_bracket in E as [E _]. congruence. }
  apply no_open_suffix in Hpre.
  destruct (re_sub_fence (pre1 ++ o :: kept1)) as (m & Hm & Hmo).
  set (s2 := re_sub fence [] (pre1 ++ o :: kept1)) in *.
  apply prefix_before_open in Hm as (pre2 & -> & ->); trivial.
  2:{ unfold no_open. eapply Forall_impl; [|exact Hmo].
      intros c Hc. unfold not_open in Hc. now destruct (is_open c). }
  apply no_open_suffix in Hpre.
  destruct (@strip_by_shape (fun c => mem_char c [BACKTICK; ch " "; LF])
              pre2 kept1 o)
    as (d3 & pre3 & kept3 & drop3 & -> & -> & Hd3 & ->).
  { match goal with |- ?t = false => destruct t eqn:E; [|reflexivity] end.
    apply fence_chars_not_bracket in E as [E _]. congruence. }
  apply no_open_suffix in Hpre.
  exists pre3, kept3, (drop3 ++ drop1). repeat split.
  - exact Hpre.
  - now rewrite app_assoc.
  - apply Forall_app. split.
    + eapply Forall_impl; [|exact Hd3].
      intros c Hc. now apply fence_chars_not_bracket.
    + eapply Forall_impl; [|exact Hd1].
      intros c Hc. now apply isspace_not_bracket.
Qed.

Lemma find_from_bound (c : char) (s : pystr) :
  forall i, find_from c s i = (-1)%Z \/ (i <= find_from c s i)%Z.
Proof.
  induction s as [|d r IH]; intros i; simpl.
  - now left.
  - destruct (char_eqb d c).
    + right. lia.
    + destruct (IH (i + 1)%Z) as [H|H]; [now left | right; lia].
Qed.

Lemma find_from_skip (c : char) (pre s : pystr) :
  Forall (fun d => char_eqb d c = false) pre ->
  forall i,
    find_from c (pre ++ s) i = find_from c s (i + Z.of_nat (length pre))%Z.
Proof.
  induction 1 as [|d pre Hd _ IH]; intros i; simpl.
  - f_equal. lia.
  - rewrite Hd, IH. f_equal. lia.
Qed.

Lemma is_open_cases (c : char) :
  is_open c = true -> c = LBRACE \/ c = LBRACK.
Proof.
  unfold is_open, mem_char, char_eqb. simpl. intros H.
  apply orb_true_iff in H as [H|H]; [left; now apply N.eqb_eq|].
  apply orb_true_iff in H as [H|H]; [right; now apply N.eqb_eq|].
  discriminate.
Qed.

Lemma no_open_find (pre : pystr) (c : char) :
  is_open c = true -> no_open pre ->
  Forall (fun d => char_eqb d c = false) pre.
Proof.
  intros Hc Hpre. unfold no_open in Hpre.
  eapply Forall_impl; [|exact Hpre].
  intros d Hd. unfold char_eqb. destruct (N.eqb_spec d c) as [->|]; congruence.
Qed.

(** Where the candidate starts: at the first opening bracket. *)
Lemma first_open_at (pre rest : pystr) (o : char) :
  no_open pre -> is_open o = true ->
  first_open (pre ++ o :: rest) = Z.of_nat (length pre).
Proof.
  intros Hpre Ho. unfold first_open, find.
  rewrite !find_from_skip by (apply no_open_find; [reflexivity | exact Hpre]).
  simpl Z.add. set (n := Z.of_nat (length pre)).
  assert (Hn : (0 <= n)%Z) by (unfold n; lia).
  apply is_open_cases in Ho as [-> | ->]; simpl find_from.
  - destruct (find_from_bound LBRACK rest (n + 1)%Z) as [E|E].
    + rewrite E. simpl.
      destruct (n =? -1)%Z eqn:En; [lia|]. simpl. reflexivity.
    + set (m := find_from LBRACK rest (n + 1)%Z) in *. simpl.
      destruct (n =? -1)%Z eqn:En; [lia|].
      destruct (m =? -1)%Z eqn:Em; [lia|]. simpl. lia.
  - destruct (find_from_bound LBRACE rest (n + 1)%Z) as [E|E].
    + rewrite E. simpl.
      destruct (n =? -1)%Z eqn:En; [lia|]. simpl. reflexivity.
    + set (m := find_from LBRACE rest (n + 1)%Z) in *. simpl.
      destruct (n =? -1)%Z eqn:En; [lia|].
      destruct (m =? -1)%Z eqn:Em; [lia|]. simpl. lia.
Qed.

Lemma open_not_close (c : char) : is_open c = true -> is_close c = false.
Proof. intros H. apply is_open_cases in H as [-> | ->]; reflexivity. Qed.

Lemma closer_is_close (o : char) :
  is_open (closer o) = false /\ is_close (closer o) = true.
Proof. unfold closer. destruct (char_eqb o LBRACE); split; reflexivity. Qed.

Lemma closer_matches (o : char) :
  is_open o = true -> mismatch o (closer o) = false.
Proof. intros H. apply is_open_cases in H as [-> | ->]; reflexivity. Qed.

Lemma match_is_closer (o c : char) :
  is_open o = true -> is_close c = true -> mismatch o c = false ->
  c = closer o.
Proof.
  intros Ho Hc Hm.
  assert (Hc' : c = RBRACK \/ c = RBRACE).
  { unfold is_close, mem_char, char_eqb in Hc. simpl in Hc.
    apply orb_true_iff in Hc as [Hc|Hc]; [left; now apply N.eqb_eq|].
    apply orb_true_iff in Hc as [Hc|Hc]; [right; now apply N.eqb_eq|].
    discriminate. }
  apply is_open_cases in Ho as [-> | ->]; destruct Hc' as [-> | ->];
    (reflexivity || discriminate).
Qed.

Lemma scan_open (c : char) (r : pystr) (i : Z) (st : list char) :
  is_open c = true -> scan (c :: r) i st = scan r (i + 1)%Z (c :: st).
Proof. intros H. cbn [scan]. now rewrite H. Qed.

Lemma scan_plain (c : char) (r : pystr) (i : Z) (st : list char) :
  is_open c = false -> is_close c = false ->
  scan (c :: r) i st = scan r (i + 1)%Z st.
Proof.
  intros H1 H2. cbn [scan]. now rewrite H1, H2.
Qed.

Lemma scan_close (c : char) (r : pystr) (i : Z) (last : char)
    (st : list char) :
  is_open c = false -> is_close c = true ->
  scan (c :: r) i (last :: st) =
  if mismatch last c then None
  else match st with [] => Some i | _ => scan r (i + 1)%Z st end.
Proof.
  intros H1 H2. cbn [scan]. now rewrite H1, H2.
Qed.

(** Items leave the stack as it is. *)
Lemma scan_Items (w : pystr) :
  Items w ->
  forall rest i st,
    st <> [] ->
    scan (w ++ rest) i st = scan rest (i + Z.of_nat (length w))%Z st.
Proof.
  induction 1 as [|c w Ho Hc _ IH|o g w Ho _ IHg _ IHw];
    intros rest i st Hst.
  - simpl. f_equal. lia.
  - simpl app. rewrite scan_plain by assumption.
    rewrite IH by assumption. f_equal. simpl length. lia.
  - simpl app. rewrite scan_open by assumption.
    rewrite <- app_assoc. rewrite IHg by discriminate.
    simpl app. destruct (closer_is_close o) as [C1 C2].
    rewrite scan_close by assumption.
    rewrite closer_matches by assumption.
    destruct st as [|x st]; [congruence|].
    rewrite IHw by discriminate. f_equal.
    simpl length. rewrite length_app. simpl length. lia.
Qed.

(** A balanced value at the start of the scan is found whole. *)
Lemma scan_Value (v rest : pystr) (i : Z) :
  Value v -> scan (v ++ rest) i [] = Some (i + Z.of_nat (length v) - 1)%Z.
Proof.
  intros [o g Ho Hg]. simpl app. rewrite scan_open by assumption.
  rewrite <- app_assoc. rewrite scan_Items by (assumption || discriminate).
  simpl app. destruct (closer_is_close o) as [C1 C2].
  rewrite scan_close by assumption.
  rewrite closer_matches by assumption.
  f_equal. simpl length. rewrite length_app. simpl length. lia.
Qed.

Lemma Items_app (a b : pystr) : Items a -> Items b -> Items (a ++ b).
Proof.
  induction 1 as [|c w Ho Hc _ IH|o g w Ho Hg _ _ IHw]; intros Hb.
  - exact Hb.
  - simpl. constructor; auto.
  - simpl. rewrite <- app_assoc. simpl.
    apply Items_group; [assumption | assumption | now apply IHw].
Qed.

Lemma Closes_items (a w : pystr) (st : list char) :
  Items a -> Closes st w -> Closes st (a ++ w).
Proof.
  intros Ha Hw. destruct Hw as [o g Ho Hg | o st g w Ho Hst Hg Hw].
  - rewrite app_assoc. constructor; [assumption | now apply Items_app].
  - rewrite app_assoc. constructor; auto using Items_app.
Qed.

(** What the scan has read when it returns an index. *)
Lemma scan_sound (s : pystr) :
  forall i st j,
    Forall (fun c => is_open c = true) st -> st <> [] ->
    scan s i st = Some j ->
    exists n,
      j = (i + Z.of_nat n)%Z /\ n < length s /\ Closes st (firstn (S n) s).
Proof.
  induction s as [|c r IH]; intros i st j Hst Hne H.
  - discriminate.
  - destruct (is_open c) eqn:Ho.
    + rewrite scan_open in H by assumption.
      apply IH in H as (n & -> & Hn & Hc);
        [|constructor; assumption | discriminate].
      exists (S n). split; [lia|]. split; [simpl; lia|].
      change (firstn (S (S n)) (c :: r)) with (c :: firstn (S n) r).
      remember (firstn (S n) r) as f eqn:Ef. clear Ef.
      inversion Hc as [o g Ho' Hg Heq1 Heq2 | o st' g w Ho' Hst' Hg Hw Heq1 Heq2].
      * subst. congruence.
      * subst.
        replace (c :: g ++ closer c :: w)
          with ((c :: g ++ closer c :: []) ++ w)
          by (simpl; rewrite <- app_assoc; reflexivity).
        apply Closes_items; [|assumption].
        constructor; [assumption | assumption | constructor].
    + destruct (is_close c) eqn:Hc.
      * destruct st as [|last st']; [congruence|].
        rewrite scan_close in H by assumption.
        destruct (mismatch last c) eqn:Hm; [discriminate|].
        inversion Hst as [|? ? Hlast Hst']. subst.
        apply match_is_closer in Hm; trivial. subst c.
        destruct st' as [|x st'].
        -- injection H as <-. exists 0. split; [lia|]. split; [simpl; lia|].
           change (Closes [last] ([] ++ [closer last])).
           constructor; [assumption | constructor].
        -- apply IH in H as (n & -> & Hn & Hcl); [|assumption | discriminate].
           exists (S n). split; [lia|]. split; [simpl; lia|].
           change (firstn (S (S n)) (closer last :: r))
             with ([] ++ closer last :: firstn (S n) r).
           constructor; [assumption | discriminate | constructor | assumption].
      * rewrite scan_plain in H by assumption.
        apply IH in H as (n & -> & Hn & Hcl); [|assumption | assumption].
        exists (S n). split; [lia|]. split; [simpl; lia|].
        change (firstn (S (S n)) (c :: r)) with ([c] ++ firstn (S n) r).
        apply Closes_items; [|assumption].
        constructor; [assumption | assumption | constructor].
Qed.

(** A closing bracket is not among the characters dropped at the end. *)
Lemma kept_through (a b kept dropped : pystr) (c : char) :
  a ++ c :: b = kept ++ dropped -> Forall plain dropped ->
  is_close c = true ->
  exists b', kept = a ++ c :: b'.
Proof.
  intros Heq Hd Hc. apply app_eq_app in Heq as (l & [[-> Hl] | [-> Hl]]).
  - exfalso. rewrite Hl in Hd. apply Forall_app in Hd as [_ Hd].
    inversion Hd as [|? ? [_ Hp] _]. congruence.
  - destruct l as [|x l].
    + exfalso. simpl in Hl. rewrite <- Hl in Hd.
      inversion Hd as [|? ? [_ Hp] _]. congruence.
    + simpl in Hl. injection Hl as <- _. now exists l.
Qed.

Lemma extract_first_json_balanced (pre v post : pystr) :
  no_open pre -> Value v -> extract_first_json (pre ++ v ++ post) = Some v.
Proof.
  intros Hpre Hv. pose proof Hv as Hv'. destruct Hv' as [o g Ho Hg].
  unfold extract_first_json.
  replace (pre ++ (o :: g ++ [closer o]) ++ post)
    with (pre ++ o :: (g ++ closer o :: post))
    by (simpl; rewrite <- app_assoc; reflexivity).
  destruct (@clean_shape pre (g ++ closer o :: post) o Hpre Ho)
    as (pre' & kept & dropped & Hpre' & Hsplit & Hdrop & ->).
  apply kept_through in Hsplit as [post' ->]; trivial.
  2:{ apply closer_is_close. }
  rewrite first_open_at by assumption.
  destruct (Z.eqb_spec (Z.of_nat (length pre')) (-1)) as [E|_]; [lia|].
  rewrite Nat2Z.id.
  rewrite skipn_app, skipn_all, Nat.sub_diag. simpl skipn. simpl app at 1.
  replace (o :: g ++ closer o :: post')
    with ((o :: g ++ [closer o]) ++ post')
    by (simpl; rewrite <- app_assoc; reflexivity).
  rewrite scan_Value by assumption.
  f_equal. unfold slice.
  rewrite skipn_app, skipn_all, Nat.sub_diag. simpl skipn. simpl app at 1.
  replace (Z.to_nat (Z.of_nat (length pre')
                     + Z.of_nat (length (o :: g ++ [closer o])) - 1 + 1)
           - length pre')
    with (length (o :: g ++ [closer o]) + 0) by lia.
  change ([] ++ o :: (g ++ [closer o]) ++ post')
    with ((o :: g ++ [closer o]) ++ post').
  rewrite firstn_app_2. simpl firstn at 1. now rewrite app_nil_r.
Qed.

Lemma extract_first_json_unbalanced (pre rest : pystr) (o : char) :
  no_open pre -> is_open o = true ->
  (forall n, ~ Value (firstn n (o :: rest))) ->
  extract_first_json (pre ++ o :: rest) = None.
Proof.
  intros Hpre Ho Hnone. unfold extract_first_json.
  destruct (@clean_shape pre rest o Hpre Ho)
    as (pre' & kept & dropped & Hpre' & -> & Hdrop & ->).
  rewrite first_open_at by assumption.
  destruct (Z.eqb_spec (Z.of_nat (length pre')) (-1)) as [E|_]; [lia|].
  rewrite Nat2Z.id.
  rewrite skipn_app, skipn_all, Nat.sub_diag. simpl skipn. simpl app at 1.
  rewrite scan_open by assumption.
  destruct (scan kept _ [o]) as [j|] eqn:Hs; [|reflexivity].
  exfalso. apply scan_sound in Hs as (n & _ & Hn & Hc);
    [|constructor; [assumption | constructor] | discriminate].
  apply (Hnone (S (S n))).
  change (firstn (S (S n)) (o :: kept ++ dropped))
    with (o :: firstn (S n) (kept ++ dropped)).
  rewrite firstn_app.
  replace (S n - length kept) with 0 by lia. simpl firstn at 2.
  rewrite app_nil_r.
  remember (firstn (S n) kept) as f eqn:Ef. clear Ef.
  inversion Hc as [o' g Ho' Hg Heq1 Heq2 | ? ? ? ? ? Hst]; [|congruence].
  now constructor.
Qed.

Lemma strip_by_no_open (p : char -> bool) (s : pystr) :
  no_open s -> no_open (strip_by p s).
Proof.
  assert (Hdw : forall t, no_open t -> no_open (dropwhile p t)).
  { intros t Ht. destruct (dropwhile_split p t) as (d & Hd & _).
    rewrite Hd in Ht. now apply no_open_suffix in Ht. }
  assert (Hrev : forall t, no_open t -> no_open (rev t)).
  { intros t Ht. unfold no_open in *. rewrite Forall_forall in *.
    intros c Hin. apply Ht. now apply in_rev. }
  intros Hs. unfold strip_by. auto.
Qed.

Lemma extract_first_json_no_bracket (text : pystr) :
  no_open text -> extract_first_json text = None.
Proof.
  intros Htext. unfold extract_first_json.
  assert (Hc : no_open (clean text)).
  { unfold clean, strip, strip_chars. apply strip_by_no_open.
    destruct (re_sub_fence (strip_by py_isspace text)) as (m & Hm & _).
    apply (strip_by_no_open py_isspace) in Htext. rewrite Hm in Htext.
    now apply no_open_suffix in Htext. }
  unfold first_open, find.
  pose proof (@find_from_skip LBRACE (clean text) []
                (@no_open_find _ LBRACE eq_refl Hc) 0%Z) as H1.
  pose proof (@find_from_skip LBRACK (clean text) []
                (@no_open_find _ LBRACK eq_refl Hc) 0%Z) as H2.
  rewrite app_nil_r in H1, H2. rewrite H1, H2. reflexivity.
Qed.

(** Balance is what the scan computes, so it can be checked by running
    it. *)
Lemma Value_iff_balanced (v : pystr) : Value v <-> balanced v = true.
Proof.
  unfold balanced. split.
  - intros Hv. pose proof (@scan_Value v [] 0%Z Hv) as H.
    rewrite app_nil_r in H. rewrite H.
    destruct Hv as [o g Ho Hg]. rewrite Ho. simpl. apply Z.eqb_refl.
  - intros H. destruct v as [|o r]; [discriminate|].
    apply andb_true_iff in H as [Ho H].
    destruct (scan (o :: r) 0 []) as [j|] eqn:Hs; [|discriminate].
    apply Z.eqb_eq in H. subst j.
    rewrite scan_open in Hs by assumption.
    apply scan_sound in Hs as (n & Hj & Hn & Hc);
      [|constructor; [assumption | constructor] | discriminate].
    simpl length in Hj.
    assert (Hlen : S n = length r) by lia.
    rewrite Hlen, firstn_all in Hc.
    inversion Hc as [o' g Ho' Hg Heq1 Heq2 | ? ? ? ? ? Hst]; [|congruence].
    now constructor.
Qed.

(** ** The claims on the StructureDetector and the JsonRecoverer *)

(** C2 (code defect).  On the numbered document of the scenario the matches
    of the dotted pattern are [1.] and [2.]; the dot that ends each of them
    is counted, so each has depth 2 and the detected depth is 2, not 1.  The
    depth-2 pattern matches nowhere and the whole document comes back as one
    paragraph instead of the two of the scenario. *)
Theorem C2_numbered_document_depth_and_split :
  findall (hd REmpty patterns) doc_numbered = [u "1."; u "2."] /\
  depth_of (u "1.") = 2 /\
  detect_min_level doc_numbered 1000 = 2 /\
  split_by_detected_level doc_numbered = [doc_numbered] /\
  split_by_detected_level doc_numbered
  <> [doc_numbered_para1; doc_numbered_para2].
Proof.
  assert (H : split_by_detected_level doc_numbered = [doc_numbered])
    by (vm_compute; reflexivity).
  repeat split; try (vm_compute; reflexivity).
  rewrite H. vm_compute. discriminate.
Qed.

(** C4 (code defect).  When the level pattern matches, the last paragraph
    already runs to the end of the text, and the text after the last marker
    is appended once more as a paragraph of its own: the two overlap, and
    the paragraphs joined are longer than the document, so not a
    subsequence of it. *)
Theorem C4_tail_emitted_twice :
  let doc := u "一、甲" in
  let paras := split_by_detected_level doc in
  finditer (build_level_regex (detect_min_level doc 1000)) doc = [(0, 2)] /\
  paras = [slice doc 0 3; slice doc 2 3] /\
  is_subsequence (concat paras) doc = false.
Proof. vm_compute. repeat split; reflexivity. Qed.

(** C5 (code defect).  The text before the first match belongs to no
    paragraph: the first paragraph starts at the first match.  The text
    after the last marker is kept as a paragraph of its own. *)
Theorem C5_text_before_first_match_dropped :
  let doc := u "前言
一、甲" in
  let paras := split_by_detected_level doc in
  finditer (build_level_regex (detect_min_level doc 1000)) doc = [(2, 5)] /\
  paras = [u "一、甲"; u "甲"] /\
  existsb (fun p => is_subsequence (u "前言") p) paras = false.
Proof. vm_compute. repeat split; reflexivity. Qed.

(** C3 (as the code has it).  A text [pre ++ v ++ post] whose [pre] holds
    no opening bracket and whose [v] is bracket-balanced (an opening
    bracket, then plain characters and balanced groups, then the closing
    bracket of the same type, every bracket character counting, also one
    inside a JSON string) is recovered as exactly [v], whatever fence or
    prose surrounds it.  A text whose part from the first opening bracket
    on has no balanced prefix, because it is never closed or closed by the
    wrong bracket, is recovered as nothing. *)
Theorem C3_extract_first_json_balanced_prefix :
  forall (pre v post rest : pystr) (o : char),
    no_open pre ->
    (Value v -> extract_first_json (pre ++ v ++ post) = Some v) /\
    (is_open o = true ->
     (forall n, ~ Value (firstn n (o :: rest))) ->
     extract_first_json (pre ++ o :: rest) = None).
Proof.
  intros pre v post rest o Hpre. split.
  - intros Hv. now apply extract_first_json_balanced.
  - intros Ho Hn. now apply extract_first_json_unbalanced.
Qed.

Lemma C3_extract_first_json_witness :
  extract_first_json
    (u "```json
" ++ j "['手机号码','昵称']" ++ u "
``` trailing commentary")
  = Some (j "['手机号码','昵称']")
  /\ extract_first_json (u "result: " ++ ch "{" :: j "'a': [1, 2") = None.
Proof.
  assert (Hpre1 : no_open (u "```json
")) by (vm_compute; repeat constructor).
  assert (Hpre2 : no_open (u "result: ")) by (vm_compute; repeat constructor).
  split.
  - apply (C3_extract_first_json_balanced_prefix
             (j "['手机号码','昵称']") (u "
``` trailing commentary") [] LBRACE Hpre1).
    apply Value_iff_balanced. vm_compute. reflexivity.
  - apply (C3_extract_first_json_balanced_prefix
             [] [] (j "'a': [1, 2") (ch "{") Hpre2).
    + reflexivity.
    + intros n Hv. apply Value_iff_balanced in Hv.
      do 12 (destruct n as [|n]; [vm_compute in Hv; discriminate|]).
      vm_compute in Hv. discriminate.
Defined.

(** C3 (as stated) fails: a well-formed JSON object whose string holds a
    bracket is not recovered. *)
Lemma C3_counterexample :
  let text := j "{'a':']'}" in
  json_loads_model text = Some (PDict [(u "a", PStr (u "]"))]) /\
  extract_first_json text = None.
Proof. vm_compute. split; reflexivity. Qed.

(** ** Dictionaries *)

Lemma str_eqb_sym (a b : pystr) : str_eqb a b = str_eqb b a.
Proof.
  destruct (str_eqb a b) eqn:E1, (str_eqb b a) eqn:E2; trivial.
  - apply str_eqb_eq in E1. subst. now rewrite str_eqb_refl in E2.
  - apply str_eqb_eq in E2. subst. now rewrite str_eqb_refl in E1.
Qed.

Lemma dict_get_set (d : list (pystr * pyval)) (k k' : pystr) (v : pyval) :
  dict_get (dict_set d k v) k' =
  if str_eqb k k' then Some v else dict_get d k'.
Proof.
  induction d as [|[k0 v0] d IH]; simpl.
  - reflexivity.
  - destruct (str_eqb k0 k) eqn:E0; simpl.
    + apply str_eqb_eq in E0. subst k0.
      destruct (str_eqb k k'); reflexivity.
    + destruct (str_eqb k0 k') eqn:E1; [|exact IH].
      apply str_eqb_eq in E1. subst k0.
      now rewrite (str_eqb_sym k k'), E0.
Qed.

Lemma existsb_str_eqb (k : pystr) (l : list pystr) :
  existsb (str_eqb k) l = true <-> In k l.
Proof.
  rewrite existsb_exists. split.
  - intros (x & Hin & Heq). apply str_eqb_eq in Heq. now subst.
  - intros Hin. exists k. split; [assumption | apply str_eqb_refl].
Qed.

Lemma dict_get_fold_set (v : pyval) (l : list pystr) :
  forall d k,
    dict_get (fold_left (fun d ent => dict_set d ent v) l d) k =
    if existsb (str_eqb k) l then Some v else dict_get d k.
Proof.
  induction l as [|x l IH]; intros d k; simpl.
  - reflexivity.
  - rewrite IH, dict_get_set. rewrite (str_eqb_sym k x).
    destruct (existsb (str_eqb k) l), (str_eqb x k); reflexivity.
Qed.

(** ** ResultFlattener *)

Lemma map_result_ok (A B : Type) (f : A -> result B) (g : A -> B)
    (l : list A) :
  (forall x, In x l -> f x = Ok (g x)) -> map_result f l = Ok (map g l).
Proof.
  induction l as [|x l IH]; intros H; simpl.
  - reflexivity.
  - rewrite (H x) by now left.
    rewrite IH by (intros y Hy; apply H; now right). reflexivity.
Qed.

Lemma guarded_getitem (scene : list pyval) (i : nat) :
  (if i <? length scene then getitem scene i else Ok (PStr []))
  = Ok (scene_field scene i).
Proof.
  unfold getitem, scene_field.
  destruct (Nat.ltb_spec i (length scene)) as [Hlt|Hge].
  - destruct (nth_error scene i) eqn:E.
    + now rewrite (nth_error_nth _ _ _ E).
    + apply nth_error_None in E. lia.
  - now rewrite nth_overflow.
Qed.

Lemma flatten_relation_ok (policy_name : pyval) (para : para_info)
    (rel : relation) :
  flatten_relation policy_name para rel = Ok (flat_of policy_name para rel).
Proof.
  unfold flatten_relation. rewrite !guarded_getitem. reflexivity.
Qed.

Lemma flatten_results_ok (policy_name : pyval)
    (processed_content : list para_info) :
  flatten_results policy_name processed_content =
  Ok (flat_of_content policy_name processed_content).
Proof.
  unfold flatten_results, flat_of_content.
  rewrite (@map_result_ok _ _ _
             (fun para => map (flat_of policy_name para) (p_relations para))).
  - now rewrite flat_map_concat_map.
  - intros para _. apply map_result_ok.
    intros rel _. apply flatten_relation_ok.
Qed.

Lemma find_absent (para : para_info) (item : pyval) :
  (forall e, In e (p_entities para) -> PStr (e_item e) <> item) ->
  List.find (fun e => str_eq_val (e_item e) item) (p_entities para) = None.
Proof.
  intros H. destruct (List.find _ _) as [e|] eqn:E; [|reflexivity].
  apply find_some in E as [Hin Heq]. exfalso. apply (H e Hin).
  unfold str_eq_val in Heq. destruct item; try discriminate.
  apply str_eqb_eq in Heq. now subst.
Qed.

(** C9.  The flattener returns for every paragraph-record list, one flat
    record per action triple, in paragraph order and then triple order; the
    record of a triple whose data item is absent from the paragraph's
    entity list has the empty string in both category fields. *)
Theorem C9_flatten_results_never_raises :
  forall (policy_name : pyval) (processed_content : list para_info),
  exists flat,
    flatten_results policy_name processed_content = Ok flat /\
    flat = flat_of_content policy_name processed_content /\
    forall para rel,
      In para processed_content -> In rel (p_relations para) ->
      (forall e, In e (p_entities para) -> PStr (e_item e) <> r_item rel) ->
      exists fr,
        In fr flat /\ f_policy fr = policy_name /\
        f_number fr = p_number para /\ f_item fr = r_item rel /\
        f_action fr = r_action rel /\
        f_level1 fr = PStr [] /\ f_level2 fr = PStr [].
Proof.
  intros policy_name pc. eexists. split; [apply flatten_results_ok|].
  split; [reflexivity|].
  intros para rel Hpara Hrel Habs.
  exists (flat_of policy_name para rel). split.
  - unfold flat_of_content. apply in_flat_map.
    exists para. split; [assumption|]. now apply in_map.
  - unfold flat_of. simpl. rewrite (find_absent _ Habs). repeat split.
Qed.

(** ** The annotation pipeline *)

Ltac run_monad :=
  unfold bind, ret, raise, lift, try_except in *.

Section PipelineProperties.

Variable world : Type.
Variable call_deepseek_api : prompt -> world -> result (option pystr) * world.
Variable json_loads : pystr -> option pyval.

(** *** EntityClassifier *)

(** One attempt returns a dict or raises. *)
Lemma classify_data_items_dict (data_items : list pystr) (w w' : world)
    (v : pyval) :
  classify_data_items call_deepseek_api json_loads data_items w = (Ok v, w') ->
  exists d, v = PDict d.
Proof.
  unfold classify_data_items. run_monad.
  destruct data_items as [|x l].
  - intros H. injection H as <- _. now exists [].
  - destruct (call_deepseek_api _ w) as [[[resp|]|e] w1];
      [| |discriminate].
    + destruct (nonempty resp).
      * destruct (extract_first_json resp) as [json_str|].
        -- destruct (nonempty json_str).
           ++ destruct (robust_json_loads json_loads json_str) as [v0|e].
              ** destruct v0; intros H; injection H as <- _; eauto.
              ** discriminate.
           ++ intros H; injection H as <- _; eauto.
        -- intros H; injection H as <- _; eauto.
      * intros H; injection H as <- _; eauto.
    + intros H; injection H as <- _; eauto.
Qed.

Lemma complete_covers (entities : list pystr) (d : list (pystr * pyval)) :
  complete entities (PDict d) = true ->
  forall ent, In ent entities -> dict_has d ent = true.
Proof.
  unfold complete. intros H ent Hin.
  apply andb_true_iff in H as [_ H].
  rewrite forallb_forall in H. now apply H.
Qed.

Lemma fallback_get (entities : list pystr) (k : pystr) :
  dict_get (fallback entities) k =
  if existsb (str_eqb k) entities then Some unclassified else None.
Proof. unfold fallback. now rewrite dict_get_fold_set. Qed.

(** C1 (as the code has it).  For a non-empty item list the classifier
    either raises, and then one of its at most two attempts raised; or
    returns a mapping that has every input item as a key.  That mapping
    is the reply of an attempt that covered all the items, returned as it
    is, so that every item keeps the classification the oracle gave and
    keys beyond the input items stay; or, when no attempt covered all the
    items, its keys are exactly the input items and every item that the
    last attempt left out is mapped to the sentinel pair. *)
Theorem C1_classify_entities_mapping :
  forall (entities : list pystr) (w : world),
    entities <> [] ->
    match classify_entities call_deepseek_api json_loads entities w with
    | (Raise e, w') =>
      exists w0,
        attempt_world call_deepseek_api json_loads entities w w0 /\
        classify_data_items call_deepseek_api json_loads entities w0
        = (Raise e, w')
    | (Ok m, w') =>
      exists d,
        m = PDict d /\
        (forall ent, In ent entities -> dict_has d ent = true) /\
        ((exists w0,
            attempt_world call_deepseek_api json_loads entities w w0 /\
            classify_data_items call_deepseek_api json_loads entities w0
            = (Ok m, w') /\
            complete entities m = true)
         \/
         ((forall k, dict_has d k = true -> In k entities) /\
          exists last w0,
            attempt_world call_deepseek_api json_loads entities w w0 /\
            classify_data_items call_deepseek_api json_loads entities w0
            = (Ok (PDict last), w') /\
            complete entities (PDict last) = false /\
            forall ent,
              In ent entities -> dict_has last ent = false ->
              dict_get d ent = Some unclassified))
    end.
Proof.
  intros entities w Hne.
  unfold classify_entities. destruct entities as [|x l]; [congruence|].
  set (entities := x :: l) in *. clearbody entities.
  cbn [classify_attempts]. run_monad.
  destruct (classify_data_items call_deepseek_api json_loads entities w)
    as [[r1|e1] w1] eqn:E1.
  2:{ exists w. split; [now left | exact E1]. }
  destruct (complete entities r1) eqn:C1.
  { destruct (classify_data_items_dict _ _ E1) as [d ->].
    exists d. split; [reflexivity|]. split; [now apply complete_covers|].
    left. exists w. split; [now left|]. now split. }
  assert (Hw1 : attempt_world call_deepseek_api json_loads entities w w1).
  { right. exists r1. now split. }
  destruct (classify_data_items call_deepseek_api json_loads entities w1)
    as [[r2|e2] w2] eqn:E2.
  2:{ exists w1. now split. }
  destruct (classify_data_items_dict _ _ E2) as [d2 ->].
  destruct (complete entities (PDict d2)) eqn:C2.
  { exists d2. split; [reflexivity|]. split; [now apply complete_covers|].
    left. exists w1. split; [assumption|]. now split. }
  exists (fallback entities). split; [reflexivity|].
  assert (Hget : forall ent, In ent entities ->
                   dict_get (fallback entities) ent = Some unclassified).
  { intros ent Hin. rewrite fallback_get.
    apply existsb_str_eqb in Hin. now rewrite Hin. }
  split.
  { intros ent Hin. unfold dict_has. now rewrite Hget. }
  right. split.
  { intros k Hk. unfold dict_has in Hk. rewrite fallback_get in Hk.
    destruct (existsb (str_eqb k) entities) eqn:Ek; [|discriminate].
    now apply existsb_str_eqb. }
  exists d2, w1. repeat split; auto.
Qed.

(** *** ScenarioRecognizer *)

(** C7 (as the code has it).  The recognizer returns the empty list when
    the oracle call fails or replies with empty text.  When the recovered
    JSON of the reply decodes to an array it returns, in order, the
    entries that are lists of at least two fields and drops the others
    silently; when it decodes to an object it returns the empty list.
    Whatever it returns, every element is a list of at least two fields.
    It raises to its caller when the oracle call raises and when the
    reply holds no balanced JSON value or the recovered text does not
    decode. *)
Theorem C7_get_scene_tags_outcomes :
  forall (para : pystr) (w : world),
    let request := PromptScenarios para (PDict []) in
    let tags := get_scene_tags call_deepseek_api json_loads para w in
    (forall l w', tags = (Ok l, w') ->
       Forall (fun t => exists fields,
                   t = PList fields /\ 2 <= length fields) l) /\
    (forall response w',
       call_deepseek_api request w = (Ok response, w') ->
       has_content response = false -> tags = (Ok [], w')) /\
    (forall response w' items,
       call_deepseek_api request w = (Ok (Some response), w') ->
       response <> [] ->
       robust_json_loads json_loads response = Ok (PList items) ->
       tags = (Ok (filter (is_list_of_at_least 2) items), w')) /\
    (forall response w' d,
       call_deepseek_api request w = (Ok (Some response), w') ->
       response <> [] ->
       robust_json_loads json_loads response = Ok (PDict d) ->
       tags = (Ok [], w')) /\
    (forall response w' e,
       call_deepseek_api request w = (Ok (Some response), w') ->
       response <> [] ->
       robust_json_loads json_loads response = Raise e ->
       tags = (Raise e, w')) /\
    (forall e w',
       call_deepseek_api request w = (Raise e, w') -> tags = (Raise e, w')).
Proof.
  intros para w request tags. subst tags.
  unfold get_scene_tags, recognize_scenarios_and_build_relations.
  fold request. run_monad.
  split; [|split; [|split; [|split; [|split]]]].
  - intros l w' H.
    destruct (call_deepseek_api request w) as [[response|e] w1];
      [|discriminate].
    assert (Hfilter : forall items,
              Forall (fun t => exists fields,
                          t = PList fields /\ 2 <= length fields)
                (filter (is_list_of_at_least 2) items)).
    { intros items. apply Forall_forall. intros t Ht.
      apply filter_In in Ht as [_ Ht]. destruct t; try discriminate.
      unfold is_list_of_at_least in Ht. apply Nat.leb_le in Ht. eauto. }
    destruct (has_content response).
    + destruct response as [response|].
      * destruct (robust_json_loads json_loads response) as [v|e];
          [|discriminate].
        destruct (py_iter (if truthy v then v else PList [])) as [items|e];
          [|discriminate].
        injection H as <- _. apply Hfilter.
      * injection H as <- _. constructor.
    + injection H as <- _. constructor.
  - intros response w' -> ->. reflexivity.
  - intros response w' items -> Hne Hr.
    destruct response as [|c r]; [congruence|].
    cbn [has_content nonempty]. rewrite Hr.
    destruct items; reflexivity.
  - intros response w' d -> Hne Hr.
    destruct response as [|c r]; [congruence|].
    cbn [has_content nonempty]. rewrite Hr.
    destruct d as [|[k v] d]; [reflexivity|].
    cbn [truthy py_iter map filter is_list_of_at_least fst].
    f_equal. f_equal. clear Hr.
    induction d as [|[k' v'] d IH]; [reflexivity | exact IH].
  - intros response w' e -> Hne Hr.
    destruct response as [|c r]; [congruence|].
    cbn [has_content nonempty]. now rewrite Hr.
  - intros e w' ->. reflexivity.
Qed.

(** *** ActionResolver and the paragraph record *)

Lemma map_result_in (A B : Type) (f : A -> result B) (l : list A)
    (ys : list B) :
  map_result f l = Ok ys ->
  forall y, In y ys -> exists x, In x l /\ f x = Ok y.
Proof.
  revert ys. induction l as [|x l IH]; intros ys H y Hy; simpl in H.
  - injection H as <-. destruct Hy.
  - destruct (f x) as [y0|e] eqn:Ex; [|discriminate].
    destruct (map_result f l) as [ys0|e]; [|discriminate].
    injection H as <-. destruct Hy as [<- | Hy].
    + exists x. split; [now left | assumption].
    + destruct (IH ys0 eq_refl y Hy) as (x' & Hin & Hx').
      exists x'. split; [now right | assumption].
Qed.

Lemma map_result_length (A B : Type) (f : A -> result B) (l : list A)
    (ys : list B) :
  map_result f l = Ok ys -> length ys = length l.
Proof.
  revert ys. induction l as [|x l IH]; intros ys H; simpl in H.
  - now injection H as <-.
  - destruct (f x) as [y0|e]; [|discriminate].
    destruct (map_result f l) as [ys0|e]; [|discriminate].
    injection H as <-. simpl. f_equal. now apply IH.
Qed.

(** Every relation is the reading of one entry of the raw list: an entry
    that is a list of at least five fields. *)
Lemma relations_of_spec (relations_raw : pyval) (relations : list relation) :
  relations_of relations_raw = Ok relations ->
  forall rel, In rel relations ->
    exists items fields,
      py_iter relations_raw = Ok items /\ In (PList fields) items /\
      5 <= length fields /\ r_scene rel = firstn 3 fields /\
      nth_error fields 3 = Some (r_action rel) /\
      nth_error fields 4 = Some (r_item rel).
Proof.
  unfold relations_of. intros H rel Hrel.
  destruct (py_iter relations_raw) as [items|e]; [|discriminate].
  destruct (map_result relation_of items) as [rs|e] eqn:Hrs; [|discriminate].
  injection H as <-. apply in_concat in Hrel as (r & Hr & Hrel).
  destruct (map_result_in _ _ Hrs r Hr) as (x & Hx & Hfx).
  unfold relation_of in Hfx. destruct x; try (injection Hfx as <-; easy).
  destruct (Nat.leb_spec 5 (length l)) as [Hlen|Hlen];
    [|injection Hfx as <-; easy].
  unfold getitem in Hfx.
  destruct (nth_error l 3) as [action|] eqn:E3; [|discriminate].
  destruct (nth_error l 4) as [item|] eqn:E4; [|discriminate].
  injection Hfx as <-. destruct Hrel as [<- | []].
  exists items, l. simpl. repeat split; assumption.
Qed.

Lemma build_entity_list_items (entities : list pystr) (classified : pyval)
    (entity_list : list entity_info) :
  build_entity_list entities classified = Ok entity_list ->
  map e_item entity_list = entities.
Proof.
  unfold build_entity_list. revert entity_list.
  induction entities as [|ent l IH]; intros entity_list H; simpl in H.
  - now injection H as <-.
  - destruct (build_entity classified ent) as [e|x] eqn:Ee; [|discriminate].
    destruct (map_result (build_entity classified) l) as [es|x];
      [|discriminate].
    injection H as <-. simpl. rewrite (IH es eq_refl). f_equal.
    unfold build_entity in Ee.
    repeat match type of Ee with
           | context [match ?t with _ => _ end] =>
             destruct t; try discriminate
           end.
    now injection Ee as <-.
Qed.

(** Nothing to relate, no call. *)
Lemma analyze_actions_short_circuit (text : pystr) (scene_tags : list pyval)
    (entities : list pystr) (w : world) :
  scene_tags = [] \/ entities = [] ->
  analyze_actions call_deepseek_api json_loads text scene_tags entities w
  = (Ok (PList []), w).
Proof.
  unfold analyze_actions. intros [-> | ->]; [reflexivity|].
  destruct scene_tags; reflexivity.
Qed.

(** C8 (as the code has it).  The action triples of a recorded paragraph
    are read off the oracle's reply to the action request made with the
    paragraph's scenario tags and entities: each triple's scenario is the
    first three fields of an entry of at least five fields of that reply,
    and nothing compares it with the scenario tags.  A paragraph has
    action triples only if it has scenario tags and entities. *)
Theorem C8_action_triples_follow_the_reply :
  forall (i : nat) (para : pystr) (w w' : world) (info : para_info),
    process_paragraph call_deepseek_api json_loads i para w = (Ok info, w') ->
    (p_relations info <> [] ->
     p_scene_tags info <> [] /\ p_entities info <> []) /\
    exists relations_raw w0,
      analyze_actions call_deepseek_api json_loads para
        (p_scene_tags info) (map e_item (p_entities info)) w0
      = (Ok relations_raw, w') /\
      relations_of relations_raw = Ok (p_relations info) /\
      forall rel, In rel (p_relations info) ->
        exists items fields,
          py_iter relations_raw = Ok items /\ In (PList fields) items /\
          5 <= length fields /\ r_scene rel = firstn 3 fields /\
          nth_error fields 3 = Some (r_action rel) /\
          nth_error fields 4 = Some (r_item rel).
Proof.
  intros i para w w' info H.
  unfold process_paragraph in H. run_monad.
  destruct (get_scene_tags call_deepseek_api json_loads para w)
    as [[scene_tags|e] w1]; [|discriminate].
  destruct (extract_entities call_deepseek_api json_loads para w1)
    as [[entities|e] w2]; [|discriminate].
  destruct (classify_entities call_deepseek_api json_loads entities w2)
    as [[classified|e] w3]; [|discriminate].
  destruct (build_entity_list entities classified) as [entity_list|e] eqn:Eb;
    [|discriminate].
  destruct (analyze_actions call_deepseek_api json_loads para scene_tags
              entities w3) as [[relations_raw|e] w4] eqn:Ea; [|discriminate].
  destruct (relations_of relations_raw) as [relations|e] eqn:Er;
    [|discriminate].
  injection H as <- <-. simpl.
  apply build_entity_list_items in Eb as Hitems.
  split.
  - intros Hrel.
    destruct scene_tags as [|t ts].
    { rewrite analyze_actions_short_circuit in Ea by now left.
      injection Ea as <- _. simpl in Er. injection Er as <-. congruence. }
    destruct entities as [|x xs].
    { rewrite analyze_actions_short_circuit in Ea by now right.
      injection Ea as <- _. simpl in Er. injection Er as <-. congruence. }
    split; [discriminate|].
    destruct entity_list; [discriminate | discriminate].
  - exists relations_raw, w3. rewrite Hitems.
    split; [exact Ea|]. split; [exact Er|].
    now apply relations_of_spec.
Qed.

(** *** The paragraph loop and the row loop *)

Lemma process_paragraphs_spec (paragraphs : list pystr) :
  forall (i : nat) (processed_content : list para_info) (w : world),
  exists recorded w',
    process_paragraphs call_deepseek_api json_loads i paragraphs
      processed_content w
    = (Ok (processed_content ++ recorded), w') /\
    Processed call_deepseek_api json_loads i paragraphs w recorded w'.
Proof.
  induction paragraphs as [|para rest IH]; intros i acc w.
  - exists [], w. simpl. unfold ret. rewrite app_nil_r.
    split; [reflexivity | constructor].
  - cbn [process_paragraphs]. run_monad.
    destruct (process_paragraph call_deepseek_api json_loads i para w)
      as [[info|e] w1] eqn:E.
    + destruct (IH (S i) (acc ++ [info]) w1) as (recorded & w2 & Hrun & Hp).
      exists (info :: recorded), w2. rewrite Hrun, <- app_assoc.
      split; [reflexivity|]. now apply Processed_recorded with (w1 := w1).
    + destruct (IH (S i) acc w1) as (recorded & w2 & Hrun & Hp).
      exists recorded, w2. rewrite Hrun.
      split; [reflexivity|]. now apply Processed_skipped with (e := e) (w1 := w1).
Qed.

Lemma usable_row_text (r : row) :
  usable_row r = true ->
  exists policy_text,
    row_policy r = PStr policy_text /\ nonempty (strip policy_text) = true.
Proof.
  unfold usable_row. destruct (row_policy r); try discriminate. eauto.
Qed.

Lemma process_rows_skip (name_column : bool) (r : row) (rest : list row)
    (results : list policy_result) (final_results : list flat_record)
    (w : world) :
  usable_row r = false ->
  process_rows call_deepseek_api json_loads name_column (r :: rest)
    results final_results w
  = process_rows call_deepseek_api json_loads name_column rest
      results final_results w.
Proof.
  unfold usable_row. intros H. cbn [process_rows].
  destruct (row_policy r); try reflexivity. now rewrite H.
Qed.

Lemma process_rows_spec (name_column : bool) (rows : list row) :
  forall (results : list policy_result) (final_results : list flat_record)
         (w : world),
  exists recorded w',
    process_rows call_deepseek_api json_loads name_column rows
      results final_results w
    = (Ok (results ++ recorded,
           final_results ++ flat_map flat_of_policy recorded), w') /\
    Policies call_deepseek_api json_loads name_column rows w recorded w'.
Proof.
  induction rows as [|r rest IH]; intros results final w.
  - exists [], w. simpl. unfold ret. rewrite !app_nil_r.
    split; [reflexivity | constructor].
  - destruct (usable_row r) eqn:Hu.
    + destruct (usable_row_text _ Hu) as (text & Ht & Hne).
      cbn [process_rows]. rewrite Ht, Hne. run_monad.
      destruct (process_paragraphs_spec (split_by_detected_level text)
                  0 [] w) as (content & w1 & Hrun & Hp).
      rewrite Hrun. simpl app. rewrite flatten_results_ok.
      fold (policy_name_of name_column r).
      set (entry := {| pol_name := policy_name_of name_column r;
                       pol_content := content |}).
      destruct (IH (results ++ [entry])
                  (final ++ flat_of_content (policy_name_of name_column r)
                              content) w1)
        as (recorded & w2 & Hrest & Hpol).
      exists (entry :: recorded), w2. rewrite Hrest, <- !app_assoc.
      split; [reflexivity|].
      now apply Policies_processed with (policy_text := text) (w1 := w1).
    + rewrite process_rows_skip by assumption.
      destruct (IH results final w) as (recorded & w' & Hrun & Hpol).
      exists recorded, w'. split; [assumption|].
      now apply Policies_skipped.
Qed.

(** C6.  The paragraph loop never raises: a paragraph whose pipeline
    raises is left out of the record list, and every other paragraph is
    run, in the world the one before it left, and recorded under its own
    number.  The row loop never raises either: every usable row gets its
    entry, with the records of its paragraphs, and the flat records of
    all entries are saved. *)
Theorem C6_paragraph_failure_is_contained :
  (forall (i : nat) (paragraphs : list pystr)
          (processed_content : list para_info) (w : world),
     exists recorded w',
       process_paragraphs call_deepseek_api json_loads i paragraphs
         processed_content w
       = (Ok (processed_content ++ recorded), w') /\
       Processed call_deepseek_api json_loads i paragraphs w recorded w') /\
  (forall (name_column : bool) (rows : list row) (w : world),
     exists results w',
       process_policies call_deepseek_api json_loads name_column rows w
       = (Ok (results, flat_map flat_of_policy results), w') /\
       Policies call_deepseek_api json_loads name_column rows w results w').
Proof.
  split.
  - intros i paragraphs acc w. apply process_paragraphs_spec.
  - intros name_column rows w. unfold process_policies.
    destruct (process_rows_spec name_column rows [] [] w)
      as (recorded & w' & Hrun & Hpol).
    exists recorded, w'. now split.
Qed.

(** C10.  A row whose text cell is not a string, or is a string of white
    space only, leaves no trace: the loop over the rows gives the same
    two lists, in the same world, as on the table without that row. *)
Theorem C10_unusable_row_is_skipped :
  forall (name_column : bool) (before after : list row) (r : row)
         (results : list policy_result) (final_results : list flat_record)
         (w : world),
    usable_row r = false ->
    process_rows call_deepseek_api json_loads name_column
      (before ++ r :: after) results final_results w
    = process_rows call_deepseek_api json_loads name_column
        (before ++ after) results final_results w.
Proof.
  intros name_column before after r results final w Hr.
  revert results final w.
  induction before as [|x before IH]; intros results final w.
  - simpl app. now apply process_rows_skip.
  - simpl app. destruct (usable_row x) eqn:Hx.
    + destruct (usable_row_text _ Hx) as (text & Ht & Hne).
      cbn [process_rows]. rewrite Ht, Hne. run_monad.
      destruct (process_paragraphs call_deepseek_api json_loads 0
                  (split_by_detected_level text) [] w) as [[content|e] w1];
        [|reflexivity].
      destruct (flatten_results _ content) as [flat|e]; [|reflexivity].
      apply IH.
    + rewrite !process_rows_skip by assumption. apply IH.
Qed.

End PipelineProperties.

(** ** The claims on concrete oracles *)

(** C1 (as stated) fails.  A reply that covers the items asked for is
    returned with its other keys; and when both attempts resolve one item of
    two, the item the oracle resolved is mapped to the sentinel pair as
    well. *)
Lemma C1_counterexample :
  (exists d,
     classify_entities scripted json_loads_model [u "姓名"] [reply reply_extra]
     = (Ok (PDict d), []) /\
     dict_has d (u "昵称") = true /\ ~ In (u "昵称") [u "姓名"]) /\
  (json_loads_model reply_partial = Some (PDict [(u "姓名", basic_profile)]) /\
   exists d,
     classify_entities scripted json_loads_model demo_entities
       [reply reply_partial; reply reply_partial]
     = (Ok (PDict d), []) /\
     dict_get d (u "姓名") = Some (unclassified) /\
     unclassified <> basic_profile).
Proof.
  split.
  - eexists. split; [vm_compute; reflexivity|]. split.
    + vm_compute. reflexivity.
    + vm_compute. intros [H|[]]. discriminate.
  - split; [vm_compute; reflexivity|].
    eexists. split; [vm_compute; reflexivity|]. split.
    + vm_compute. reflexivity.
    + vm_compute. discriminate.
Qed.

Lemma C1_classify_entities_witness :
  demo_entities <> [] /\
  exists d,
    classify_entities scripted json_loads_model demo_entities
      [reply reply_partial; reply reply_partial]
    = (Ok (PDict d), []) /\
    (forall ent, In ent demo_entities -> dict_has d ent = true) /\
    dict_get d (u "设备型号") = Some unclassified.
Proof.
  assert (Hne : demo_entities <> []) by discriminate.
  split; [exact Hne|].
  pose proof (@C1_classify_entities_mapping script scripted json_loads_model
                demo_entities [reply reply_partial; reply reply_partial] Hne)
    as P.
  destruct (classify_entities scripted json_loads_model demo_entities
              [reply reply_partial; reply reply_partial])
    as [[m|e] w'] eqn:E; vm_compute in E; [|discriminate].
  destruct P as (d & Hm & Hcov & _).
  exists d. injection E as <- <-. split; [now rewrite Hm|].
  split; [exact Hcov|].
  injection Hm as <-. vm_compute. reflexivity.
Defined.

(** C7 (as stated) fails.  A reply without JSON makes the recognizer raise,
    and an entry of four fields, or one with a number in it, is returned. *)
Lemma C7_counterexample :
  get_scene_tags scripted json_loads_model demo_para
    [reply (u "无法识别场景")]
  = (Raise TypeError, []) /\
  get_scene_tags scripted json_loads_model demo_para
    [reply (j "[['a','b','c','d'], ['x', 1], ['y'], 'z']")]
  = (Ok [PList [PStr (u "a"); PStr (u "b"); PStr (u "c"); PStr (u "d")];
         PList [PStr (u "x"); PInt 1]], []).
Proof. split; vm_compute; reflexivity. Qed.

Lemma C7_get_scene_tags_witness :
  get_scene_tags scripted json_loads_model demo_para
    [reply (j "[['账户与身份管理','登录与注册'], ['y'], 'z']")]
  = (Ok [demo_tag], []) /\
  get_scene_tags scripted json_loads_model demo_para [Ok None] = (Ok [], []) /\
  get_scene_tags scripted json_loads_model demo_para [reply (j "[['a','b']")]
  = (Raise TypeError, []).
Proof.
  split; [|split].
  - destruct (@C7_get_scene_tags_outcomes script scripted json_loads_model
                demo_para
                [reply (j "[['账户与身份管理','登录与注册'], ['y'], 'z']")])
      as (_ & _ & H & _).
    apply (H (j "[['账户与身份管理','登录与注册'], ['y'], 'z']") []
             [demo_tag; PList [PStr (u "y")]; PStr (u "z")]).
    + reflexivity.
    + vm_compute. discriminate.
    + vm_compute. reflexivity.
  - destruct (@C7_get_scene_tags_outcomes script scripted json_loads_model
                demo_para [Ok None]) as (_ & H & _).
    apply (H None []); reflexivity.
  - destruct (@C7_get_scene_tags_outcomes script scripted json_loads_model
                demo_para [reply (j "[['a','b']")]) as (_ & _ & _ & _ & H & _).
    apply (H (j "[['a','b']") [] TypeError).
    + reflexivity.
    + vm_compute. discriminate.
    + vm_compute. reflexivity.
Defined.

(** C8 (as stated) fails.  The oracle follows the five-field format of the
    action prompt for a two-level scenario tag: the triple's scenario has
    three fields and is not in the paragraph's tag list. *)
Lemma C8_counterexample :
  process_paragraph scripted json_loads_model 0 demo_para demo_script
  = (Ok demo_info, []) /\
  In demo_relation (p_relations demo_info) /\
  ~ In (PList (r_scene demo_relation)) (p_scene_tags demo_info).
Proof.
  split; [vm_compute; reflexivity|]. split.
  - now left.
  - vm_compute. intros [H|[]]. discriminate.
Qed.

Lemma C8_action_triples_witness :
  process_paragraph scripted json_loads_model 0 demo_para demo_script
  = (Ok demo_info, []) /\
  (p_relations demo_info <> [] ->
   p_scene_tags demo_info <> [] /\ p_entities demo_info <> []) /\
  exists relations_raw w0,
    analyze_actions scripted json_loads_model demo_para
      (p_scene_tags demo_info) (map e_item (p_entities demo_info)) w0
    = (Ok relations_raw, []) /\
    relations_of relations_raw = Ok (p_relations demo_info).
Proof.
  assert (H : process_paragraph scripted json_loads_model 0 demo_para
                demo_script = (Ok demo_info, []))
    by (vm_compute; reflexivity).
  split; [exact H|].
  destruct (@C8_action_triples_follow_the_reply script scripted
              json_loads_model 0 demo_para demo_script [] demo_info H)
    as (Hne & raw & w0 & Ha & Hr & _).
  split; [exact Hne|]. exists raw, w0. now split.
Defined.

Lemma C9_flatten_results_witness :
  exists flat,
    flatten_results (PStr (u "政策_1")) [stray_info] = Ok flat /\
    exists fr,
      In fr flat /\ f_item fr = PStr (u "银行卡号") /\
      f_level1 fr = PStr [] /\ f_level2 fr = PStr [].
Proof.
  destruct (C9_flatten_results_never_raises (PStr (u "政策_1")) [stray_info])
    as (flat & Hok & _ & H).
  exists flat. split; [exact Hok|].
  destruct (H stray_info
              {| r_scene := [PStr (u "账户与身份管理"); PStr (u "登录与注册")];
                 r_action := PStr (u "收集");
                 r_item := PStr (u "银行卡号") |})
    as (fr & Hin & _ & _ & Hitem & _ & H1 & H2).
  - now left.
  - now left.
  - intros e [<-|[]]. vm_compute. discriminate.
  - exists fr. repeat split; assumption.
Defined.

Lemma C10_unusable_row_witness :
  usable_row row_nan = false /\ usable_row row_blank = false /\
  process_rows scripted json_loads_model false
    ([row_text] ++ row_nan :: [row_blank]) [] [] demo_script
  = process_rows scripted json_loads_model false
      ([row_text] ++ [row_blank]) [] [] demo_script /\
  process_rows scripted json_loads_model false
    ([row_text] ++ row_blank :: []) [] [] demo_script
  = process_rows scripted json_loads_model false
      ([row_text] ++ []) [] [] demo_script.
Proof.
  assert (H1 : usable_row row_nan = false) by reflexivity.
  assert (H2 : usable_row row_blank = false) by (vm_compute; reflexivity).
  split; [exact H1|]. split; [exact H2|]. split.
  - exact (@C10_unusable_row_is_skipped script scripted json_loads_model
             false [row_text] [row_blank] row_nan [] [] demo_script H1).
  - exact (@C10_unusable_row_is_skipped script scripted json_loads_model
             false [row_text] [] row_blank [] [] demo_script H2).
Defined.

(** The table of the three rows on the scripted oracle: one policy entry,
    named by its index, with the record of its paragraph, and one flat
    record. *)
Example process_policies_demo :
  process_policies scripted json_loads_model false
    [row_text; row_nan; row_blank] demo_script
  = (Ok ([{| pol_name := PStr (u "政策_1"); pol_content := [demo_info] |}],
         [flat_of (PStr (u "政策_1")) demo_info demo_relation]), []).
Proof. vm_compute. reflexivity. Qed.

(** The fenced reply of the extraction scenario of the design. *)
Example extract_entities_fenced :
  extract_entities scripted json_loads_model demo_para
    [reply (u "```json
" ++ j "['手机号码','昵称']" ++ u "
``` trailing commentary")]
  = (Ok [u "手机号码"; u "昵称"], []).
Proof. vm_compute. reflexivity. Qed.

(** No scenario tag, no call: the script is left as it was. *)
Example analyze_actions_no_tags :
  analyze_actions scripted json_loads_model demo_para [] [u "手机号码"]
    demo_script
  = (Ok (PList []), demo_script).
Proof. reflexivity. Qed.

(** * Further properties of the code *)

(** ** JsonRecoverer, both directions *)

Lemma strip_by_split (p : char -> bool) (s : pystr) :
  exists d t,
    s = d ++ strip_by p s ++ t /\
    Forall (fun c => p c = true) d /\ Forall (fun c => p c = true) t.
Proof.
  unfold strip_by.
  destruct (dropwhile_split p s) as (d & Hd & Hpd).
  destruct (dropwhile_split p (rev (dropwhile p s))) as (t & Ht & Hpt).
  exists d, (rev t). split; [|split].
  - rewrite <- rev_app_distr, <- Ht, rev_involutive. exact Hd.
  - exact Hpd.
  - apply Forall_forall. intros c Hc. apply in_rev in Hc.
    rewrite Forall_forall in Hpt. now apply Hpt.
Qed.

(** The clean-up removes a lead without opening bracket and a trail. *)
Lemma clean_split (text : pystr) :
  exists lead trail, text = lead ++ clean text ++ trail /\ no_open lead.
Proof.
  unfold clean, strip, strip_chars.
  destruct (strip_by_split py_isspace text) as (d1 & t1 & H1 & Hd1 & _).
  set (s1 := strip_by py_isspace text) in *.
  destruct (re_sub_fence s1) as (m & H2 & Hm).
  set (s2 := re_sub fence [] s1) in *.
  destruct (strip_by_split (fun c => mem_char c [BACKTICK; ch " "; LF]) s2)
    as (d3 & t3 & H3 & Hd3 & _).
  set (s3 := strip_by _ s2) in *.
  exists (d1 ++ m ++ d3), (t3 ++ t1). split.
  - rewrite H1 at 1. rewrite H2 at 1. rewrite H3 at 1.
    now rewrite <- !app_assoc.
  - unfold no_open. apply Forall_app. split; [|apply Forall_app; split].
    + eapply Forall_impl; [|exact Hd1].
      intros c Hc. now apply isspace_not_bracket.
    + eapply Forall_impl; [|exact Hm].
      intros c Hc. unfold not_open in Hc. now destruct (is_open c).
    + eapply Forall_impl; [|exact Hd3].
      intros c Hc. now apply fence_chars_not_bracket.
Qed.

Lemma first_open_split (t : pystr) :
  no_open t \/
  exists pre o rest, t = pre ++ o :: rest /\ no_open pre /\ is_open o = true.
Proof.
  induction t as [|c t IH].
  - left. constructor.
  - destruct (is_open c) eqn:Hc.
    + right. exists [], c, t. repeat split; [constructor | assumption].
    + destruct IH as [IH | (pre & o & rest & -> & Hpre & Ho)].
      * left. now constructor.
      * right. exists (c :: pre), o, rest. repeat split; trivial.
        now constructor.
Qed.

Lemma Value_head (v : pystr) :
  Value v -> exists o r, v = o :: r /\ is_open o = true.
Proof. intros [o g Ho Hg]. eauto. Qed.

(** What comes back is balanced and starts at the first opening bracket of
    the cleaned text. *)
Lemma extract_first_json_sound (text v : pystr) :
  extract_first_json text = Some v ->
  Value v /\ exists pre post, clean text = pre ++ v ++ post /\ no_open pre.
Proof.
  unfold extract_first_json. intros H.
  destruct (first_open_split (clean text))
    as [Hno | (pre & o & rest & Ht & Hpre & Ho)].
  - exfalso. unfold first_open, find in H.
    pose proof (@find_from_skip LBRACE (clean text) []
                  (@no_open_find _ LBRACE eq_refl Hno) 0%Z) as H1.
    pose proof (@find_from_skip LBRACK (clean text) []
                  (@no_open_find _ LBRACK eq_refl Hno) 0%Z) as H2.
    rewrite app_nil_r in H1, H2. rewrite H1, H2 in H. discriminate.
  - rewrite Ht in H. rewrite first_open_at in H by assumption.
    destruct (Z.eqb_spec (Z.of_nat (length pre)) (-1)) as [E|_]; [lia|].
    rewrite Nat2Z.id in H.
    rewrite skipn_app, skipn_all, Nat.sub_diag in H.
    simpl skipn in H. simpl app in H at 1.
    rewrite scan_open in H by assumption.
    destruct (scan rest _ [o]) as [i|] eqn:Hs; [|discriminate].
    apply scan_sound in Hs as (n & -> & Hn & Hc);
      [|constructor; [assumption | constructor] | discriminate].
    injection H as <-. unfold slice.
    rewrite skipn_app, skipn_all, Nat.sub_diag. simpl skipn. simpl app at 1.
    replace (Z.to_nat (Z.of_nat (length pre) + 1 + Z.of_nat n + 1)
             - length pre) with (S (S n)) by lia.
    change (firstn (S (S n)) (o :: rest)) with (o :: firstn (S n) rest).
    split.
    + remember (firstn (S n) rest) as f eqn:Ef. clear Ef.
      inversion Hc as [o' g Ho' Hg Heq1 Heq2 | ? ? ? ? ? Hst]; [|congruence].
      now constructor.
    + exists pre, (skipn (S n) rest). split; [|assumption].
      rewrite Ht. rewrite <- (firstn_skipn (S n) rest) at 1. reflexivity.
Qed.

(** X1.  The recoverer returns [v] exactly when [v] is bracket-balanced and
    the text is [a ++ v ++ b] with no opening bracket in [a]: what it
    returns is a contiguous part of its input that starts at the first
    opening bracket. *)
Theorem X1_extract_first_json_characterized :
  forall (text v : pystr),
    extract_first_json text = Some v <->
    exists a b, text = a ++ v ++ b /\ no_open a /\ Value v.
Proof.
  intros text v. split.
  - intros H. apply extract_first_json_sound in H
      as (Hv & pre & post & Hc & Hpre).
    destruct (clean_split text) as (lead & trail & Ht & Hlead).
    exists (lead ++ pre), (post ++ trail). split; [|split].
    + rewrite Ht at 1. rewrite Hc. now rewrite <- !app_assoc.
    + unfold no_open in *. now apply Forall_app.
    + exact Hv.
  - intros (a & b & -> & Ha & Hv). now apply extract_first_json_balanced.
Qed.

Lemma extract_first_json_twice (text v : pystr) :
  extract_first_json text = Some v -> extract_first_json v = Some v.
Proof.
  intros H. apply extract_first_json_sound in H as [Hv _].
  pose proof (@extract_first_json_balanced [] v [] (Forall_nil _) Hv) as E.
  simpl in E. now rewrite app_nil_r in E.
Qed.

(** X2.  Recovery is idempotent: recovering from a recovered value gives
    that value again. *)
Theorem X2_extract_first_json_idempotent :
  forall (text v : pystr),
    extract_first_json text = Some v -> extract_first_json v = Some v.
Proof. intros text v H. exact (extract_first_json_twice _ H). Qed.

Lemma X2_extract_first_json_idempotent_witness :
  extract_first_json (u "see " ++ j "{'a': [1, 2]}" ++ u " and [3]")
  = Some (j "{'a': [1, 2]}") /\
  extract_first_json (j "{'a': [1, 2]}") = Some (j "{'a': [1, 2]}").
Proof.
  assert (H : extract_first_json
                (u "see " ++ j "{'a': [1, 2]}" ++ u " and [3]")
              = Some (j "{'a': [1, 2]}")) by (vm_compute; reflexivity).
  split; [exact H|]. exact (X2_extract_first_json_idempotent _ H).
Defined.

(** ** White space stripping *)

Lemma dropwhile_head (p : char -> bool) (s : pystr) :
  match dropwhile p s with [] => True | c :: _ => p c = false end.
Proof.
  induction s as [|c r IH]; simpl; [exact I|].
  destruct (p c) eqn:E; [exact IH | exact E].
Qed.

Lemma dropwhile_fixed (p : char -> bool) (s : pystr) :
  match s with [] => True | c :: _ => p c = false end -> dropwhile p s = s.
Proof. destruct s as [|c r]; simpl; [reflexivity|]. now intros ->. Qed.

Lemma strip_by_idempotent (p : char -> bool) (s : pystr) :
  strip_by p (strip_by p s) = strip_by p s.
Proof.
  unfold strip_by.
  set (a := dropwhile p s).
  set (b := dropwhile p (rev a)).
  assert (Ha : match a with [] => True | c :: _ => p c = false end)
    by apply dropwhile_head.
  assert (Hb : match b with [] => True | c :: _ => p c = false end)
    by apply dropwhile_head.
  assert (Hr : dropwhile p (rev b) = rev b).
  { apply dropwhile_fixed.
    destruct (dropwhile_split p (rev a)) as (t & Ht & _). fold b in Ht.
    assert (Ea : a = rev b ++ rev t).
    { rewrite <- rev_app_distr, <- Ht. now rewrite rev_involutive. }
    destruct (rev b) as [|c r]; [exact I|].
    rewrite Ea in Ha. exact Ha. }
  rewrite Hr, rev_involutive. now rewrite (dropwhile_fixed p b Hb).
Qed.

Lemma dedup_In (l : list pystr) (x : pystr) : In x (dedup l) <-> In x l.
Proof.
  induction l as [|y l IH]; simpl; [tauto|].
  destruct (existsb (str_eqb y) l) eqn:E.
  - rewrite IH. split; [tauto|]. intros [<-|H]; [|exact H].
    now apply existsb_str_eqb.
  - simpl. now rewrite IH.
Qed.

Lemma dedup_NoDup (l : list pystr) : NoDup (dedup l).
Proof.
  induction l as [|y l IH]; simpl; [constructor|].
  destruct (existsb (str_eqb y) l) eqn:E; [exact IH|].
  constructor; [|exact IH].
  intros Hin. apply (proj1 (dedup_In l y)) in Hin.
  apply (proj2 (existsb_str_eqb y l)) in Hin. rewrite E in Hin. discriminate.
Qed.

Lemma clean_items_spec (items : list pyval) :
  NoDup (clean_items items) /\
  forall x, In x (clean_items items) ->
    x <> [] /\ strip x = x /\ exists s, In (PStr s) items /\ x = strip s.
Proof.
  unfold clean_items. split; [apply dedup_NoDup|].
  intros x Hx. apply (proj1 (dedup_In _ x)) in Hx.
  apply in_flat_map in Hx as (v & Hv & Hx).
  destruct v; try contradiction.
  destruct (nonempty (strip s)) eqn:E; [|contradiction].
  destruct Hx as [<-|[]]. split; [|split].
  - intros H0. now rewrite H0 in E.
  - apply strip_by_idempotent.
  - now exists s.
Qed.

(** ** The stages, one by one *)

Section StageProperties.

Variable world : Type.
Variable call_deepseek_api : prompt -> world -> result (option pystr) * world.
Variable json_loads : pystr -> option pyval.


Lemma extract_personal_data_cases (text : pystr) (w : world) :
  match call_deepseek_api (PromptExtract text) w with
  | (Raise e, w') =>
    extract_personal_data call_deepseek_api json_loads text w = (Raise e, w')
  | (Ok _, w') =>
    extract_personal_data call_deepseek_api json_loads text w = (Ok [], w')
    \/ exists items,
         extract_personal_data call_deepseek_api json_loads text w
         = (Ok (clean_items items), w')
  end.
Proof.
  unfold extract_personal_data. run_monad.
  destruct (call_deepseek_api (PromptExtract text) w) as [[[resp|]|e] w1];
    [| now left | reflexivity].
  destruct (nonempty resp); [|now left].
  destruct (extract_first_json resp) as [json_str|]; [|now left].
  destruct (nonempty json_str); [|now left].
  destruct (json_loads json_str) as [v|]; [|now left].
  destruct v; try (now left). right. now exists l.
Qed.

(** X4.  Entity extraction raises only if the oracle call itself raises;
    whatever the reply, the items it returns are pairwise distinct,
    non-empty and free of white space at both ends. *)
Theorem X4_extract_entities_outcomes :
  forall (para : pystr) (w : world),
    (forall e w',
       extract_entities call_deepseek_api json_loads para w = (Raise e, w') ->
       call_deepseek_api (PromptExtract para) w = (Raise e, w')) /\
    (forall items w',
       extract_entities call_deepseek_api json_loads para w = (Ok items, w') ->
       NoDup items /\ forall x, In x items -> x <> [] /\ strip x = x).
Proof.
  intros para w.
  assert (Hsame : forall l : list pystr,
            match l with [] => [] | _ => l end = l) by (now intros []).
  pose proof (extract_personal_data_cases para w) as Hc.
  unfold extract_entities, bind, ret.
  destruct (call_deepseek_api (PromptExtract para) w) as [[r|e] w1].
  - destruct Hc as [-> | [items ->]]; cbv beta iota; rewrite ?Hsame.
    + split; [discriminate|]. intros l w' H. injection H as <- _.
      split; [constructor | intros x []].
    + split; [discriminate|]. intros l w' H. injection H as <- _.
      destruct (clean_items_spec items) as [Hnd Hx]. split; [exact Hnd|].
      intros x Hin. destruct (Hx x Hin) as (H1 & H2 & _). now split.
  - rewrite Hc. split; [|discriminate].
    intros e0 w' H. injection H as <- <-. reflexivity.
Qed.



End StageProperties.

Lemma X4_extract_entities_witness :
  extract_entities scripted json_loads_model demo_para
    [reply (j "[' 手机号码', '昵称 ', '手机号码', '', 7]")]
  = (Ok [u "昵称"; u "手机号码"], []) /\
  NoDup [u "昵称"; u "手机号码"] /\
  extract_entities scripted json_loads_model demo_para [Raise ApiError]
  = (Raise ApiError, []) /\
  scripted (PromptExtract demo_para) [Raise ApiError] = (Raise ApiError, []).
Proof.
  assert (H1 : extract_entities scripted json_loads_model demo_para
                 [reply (j "[' 手机号码', '昵称 ', '手机号码', '', 7]")]
               = (Ok [u "昵称"; u "手机号码"], []))
    by (vm_compute; reflexivity).
  assert (H2 : extract_entities scripted json_loads_model demo_para
                 [Raise ApiError] = (Raise ApiError, []))
    by reflexivity.
  split; [exact H1|]. split.
  - destruct (@X4_extract_entities_outcomes script scripted json_loads_model
                demo_para
                [reply (j "[' 手机号码', '昵称 ', '手机号码', '', 7]")])
      as [_ H].
    exact (proj1 (H _ _ H1)).
  - split; [exact H2|].
    destruct (@X4_extract_entities_outcomes script scripted json_loads_model
                demo_para [Raise ApiError])
      as [H _].
    exact (H _ _ H2).
Defined.



(** ** How many calls the pipeline makes *)

Section CallCounts.

Variable world : Type.
Variable call_deepseek_api : prompt -> world -> result (option pystr) * world.
Variable json_loads : pystr -> option pyval.

Lemma calls_get_scene_tags (para : pystr) :
  makes_calls 1 1
    (get_scene_tags (counted call_deepseek_api) json_loads para).
Proof.
  intros w n.
  unfold get_scene_tags, recognize_scenarios_and_build_relations.
  run_monad. unfold counted. cbn [fst snd].
  destruct (call_deepseek_api _ w) as [[r|e] w1].
  - destruct (has_content r).
    + destruct r as [resp|].
      * destruct (robust_json_loads json_loads resp) as [v|e].
        -- destruct (py_iter (if truthy v then v else PList [])).
           ++ eexists _, w1, 1. rewrite Nat.add_1_r. split; [reflexivity|lia].
           ++ eexists _, w1, 1. rewrite Nat.add_1_r. split; [reflexivity|lia].
        -- eexists _, w1, 1. rewrite Nat.add_1_r. split; [reflexivity|lia].
      * eexists _, w1, 1. rewrite Nat.add_1_r. split; [reflexivity|lia].
    + eexists _, w1, 1. rewrite Nat.add_1_r. split; [reflexivity|lia].
  - eexists _, w1, 1. rewrite Nat.add_1_r. split; [reflexivity|lia].
Qed.

Lemma calls_extract_entities (para : pystr) :
  makes_calls 1 1
    (extract_entities (counted call_deepseek_api) json_loads para).
Proof.
  intros w n.
  pose proof (extract_personal_data_cases (counted call_deepseek_api)
                json_loads para (w, n)) as Hc.
  unfold extract_entities, bind, ret.
  unfold counted in Hc at 1. cbn [fst snd] in Hc.
  destruct (call_deepseek_api (PromptExtract para) w) as [[r|e] w1].
  - destruct Hc as [-> | [items ->]];
      eexists _, w1, 1; rewrite Nat.add_1_r; (split; [reflexivity|lia]).
  - rewrite Hc. eexists _, w1, 1. rewrite Nat.add_1_r.
    split; [reflexivity|lia].
Qed.

Lemma calls_classify_data_items (data_items : list pystr) :
  makes_calls 0 1
    (classify_data_items (counted call_deepseek_api) json_loads data_items).
Proof.
  intros w n. unfold classify_data_items. run_monad.
  destruct data_items as [|x l].
  { eexists _, w, 0. rewrite Nat.add_0_r. split; [reflexivity|lia]. }
  unfold counted. cbn [fst snd].
  destruct (call_deepseek_api _ w) as [[[resp|]|e] w1].
  - destruct (nonempty resp).
    + destruct (extract_first_json resp) as [json_str|].
      * destruct (nonempty json_str).
        -- destruct (robust_json_loads json_loads json_str) as [v|e].
           ++ destruct v; eexists _, w1, 1; rewrite Nat.add_1_r;
                (split; [reflexivity|lia]).
           ++ eexists _, w1, 1. rewrite Nat.add_1_r. split; [reflexivity|lia].
        -- eexists _, w1, 1. rewrite Nat.add_1_r. split; [reflexivity|lia].
      * eexists _, w1, 1. rewrite Nat.add_1_r. split; [reflexivity|lia].
    + eexists _, w1, 1. rewrite Nat.add_1_r. split; [reflexivity|lia].
  - eexists _, w1, 1. rewrite Nat.add_1_r. split; [reflexivity|lia].
  - eexists _, w1, 1. rewrite Nat.add_1_r. split; [reflexivity|lia].
Qed.

Lemma calls_classify_entities (entities : list pystr) :
  makes_calls 0 2
    (classify_entities (counted call_deepseek_api) json_loads entities).
Proof.
  intros w n. unfold classify_entities.
  destruct entities as [|x l].
  { eexists _, w, 0. rewrite Nat.add_0_r. split; [reflexivity|lia]. }
  set (entities := x :: l). clearbody entities.
  cbn [classify_attempts]. run_monad.
  destruct (calls_classify_data_items entities w n)
    as (r1 & w1 & k1 & E1 & Hk1).
  rewrite E1. destruct r1 as [r1|e1].
  2:{ exists (Raise e1), w1, k1. split; [reflexivity|lia]. }
  destruct (complete entities r1).
  { exists (Ok r1), w1, k1. split; [reflexivity|lia]. }
  destruct (calls_classify_data_items entities w1 (n + k1))
    as (r2 & w2 & k2 & E2 & Hk2).
  rewrite E2. rewrite <- Nat.add_assoc. destruct r2 as [r2|e2].
  2:{ exists (Raise e2), w2, (k1 + k2). split; [reflexivity|lia]. }
  destruct (complete entities r2);
    eexists _, w2, (k1 + k2); (split; [reflexivity|lia]).
Qed.

Lemma calls_analyze_actions (text : pystr) (scene_tags : list pyval)
    (entities : list pystr) :
  makes_calls 0 1
    (analyze_actions (counted call_deepseek_api) json_loads text scene_tags
       entities).
Proof.
  intros w n. unfold analyze_actions. run_monad.
  destruct scene_tags as [|t ts].
  { eexists _, w, 0. rewrite Nat.add_0_r. split; [reflexivity|lia]. }
  destruct entities as [|x xs].
  { eexists _, w, 0. rewrite Nat.add_0_r. split; [reflexivity|lia]. }
  unfold counted. cbn [fst snd].
  destruct (call_deepseek_api _ w) as [[[resp|]|e] w1].
  - destruct (nonempty resp).
    + destruct (extract_first_json resp) as [json_str|].
      * destruct (nonempty json_str).
        -- destruct (robust_json_loads json_loads json_str) as [v|e];
             eexists _, w1, 1; rewrite Nat.add_1_r;
             (split; [reflexivity|lia]).
        -- eexists _, w1, 1. rewrite Nat.add_1_r. split; [reflexivity|lia].
      * eexists _, w1, 1. rewrite Nat.add_1_r. split; [reflexivity|lia].
    + eexists _, w1, 1. rewrite Nat.add_1_r. split; [reflexivity|lia].
  - eexists _, w1, 1. rewrite Nat.add_1_r. split; [reflexivity|lia].
  - eexists _, w1, 1. rewrite Nat.add_1_r. split; [reflexivity|lia].
Qed.

Lemma calls_process_paragraph (i : nat) (para : pystr) :
  makes_calls 1 5
    (process_paragraph (counted call_deepseek_api) json_loads i para).
Proof.
  intros w n. unfold process_paragraph. run_monad.
  destruct (calls_get_scene_tags para w n) as (r1 & w1 & k1 & E1 & Hk1).
  rewrite E1. destruct r1 as [scene_tags|e].
  2:{ exists (Raise e), w1, k1. split; [reflexivity|lia]. }
  destruct (calls_extract_entities para w1 (n + k1))
    as (r2 & w2 & k2 & E2 & Hk2).
  rewrite E2. destruct r2 as [entities|e].
  2:{ exists (Raise e), w2, (k1 + k2). rewrite Nat.add_assoc.
      split; [reflexivity|lia]. }
  destruct (calls_classify_entities entities w2 (n + k1 + k2))
    as (r3 & w3 & k3 & E3 & Hk3).
  rewrite E3. destruct r3 as [classified|e].
  2:{ exists (Raise e), w3, (k1 + k2 + k3). rewrite !Nat.add_assoc.
      split; [reflexivity|lia]. }
  destruct (build_entity_list entities classified) as [entity_list|e].
  2:{ exists (Raise e), w3, (k1 + k2 + k3). rewrite !Nat.add_assoc.
      split; [reflexivity|lia]. }
  destruct (calls_analyze_actions para scene_tags entities w3
              (n + k1 + k2 + k3)) as (r4 & w4 & k4 & E4 & Hk4).
  rewrite E4. destruct r4 as [relations_raw|e].
  2:{ exists (Raise e), w4, (k1 + k2 + k3 + k4). rewrite !Nat.add_assoc.
      split; [reflexivity|lia]. }
  destruct (relations_of relations_raw) as [relations|e];
    eexists _, w4, (k1 + k2 + k3 + k4); rewrite !Nat.add_assoc;
    (split; [reflexivity|lia]).
Qed.

(** X7.  The number of oracle calls is bounded: the classifier makes at
    most two, a paragraph at least one and at most five (one for the
    scenarios, one for the entities, at most two for the classification,
    at most one for the actions), and the paragraph loop between one and
    five per paragraph. *)
Theorem X7_oracle_calls_are_bounded :
  (forall entities,
     makes_calls 0 2
       (classify_entities (counted call_deepseek_api) json_loads entities)) /\
  (forall i para,
     makes_calls 1 5
       (process_paragraph (counted call_deepseek_api) json_loads i para)) /\
  (forall paragraphs i processed_content,
     makes_calls (length paragraphs) (5 * length paragraphs)
       (process_paragraphs (counted call_deepseek_api) json_loads i paragraphs
          processed_content)).
Proof.
  split; [exact calls_classify_entities|].
  split; [exact calls_process_paragraph|].
  induction paragraphs as [|para rest IH]; intros i acc w n.
  - exists (Ok acc), w, 0. rewrite Nat.add_0_r. simpl. split; [reflexivity|lia].
  - cbn [process_paragraphs]. run_monad.
    destruct (calls_process_paragraph i para w n) as (r & w1 & k & E & Hk).
    rewrite E. destruct r as [info|e].
    + destruct (IH (S i) (acc ++ [info]) w1 (n + k))
        as (r2 & w2 & k2 & E2 & Hk2).
      rewrite E2. exists r2, w2, (k + k2). rewrite Nat.add_assoc.
      split; [reflexivity | simpl length; lia].
    + destruct (IH (S i) acc w1 (n + k)) as (r2 & w2 & k2 & E2 & Hk2).
      rewrite E2. exists r2, w2, (k + k2). rewrite Nat.add_assoc.
      split; [reflexivity | simpl length; lia].
Qed.

End CallCounts.

(** ** The matcher, continued *)

Lemma leaves_any (r : regex) : leaves (fun _ => true) r.
Proof. induction r; simpl; auto. Qed.

(** A match consumes a run of the subject. *)
Lemma rmatch_run (A : Type) (r : regex) (pos : nat) (s : pystr)
    (k : nat -> pystr -> option A) (x : A) :
  rmatch r pos s k = Some x ->
  exists m s', s = m ++ s' /\ k (pos + length m) s' = Some x.
Proof.
  intros H. apply (@rmatch_consumes _ A r (leaves_any r)) in H
    as (m & s' & Hs & _ & Hk).
  now exists m, s'.
Qed.

Lemma star_loop_run (A : Type) (a : regex)
    (k : nat -> pystr -> option A) (fuel pos : nat) (s : pystr) (x : A) :
  star_loop (rmatch a) k fuel pos s = Some x ->
  exists m s', s = m ++ s' /\ k (pos + length m) s' = Some x.
Proof.
  intros H. eapply star_loop_consumes in H.
  2:{ exact (@rmatch_consumes _ A a (leaves_any a)). }
  destruct H as (m & s' & Hs & _ & Hk). now exists m, s'.
Qed.

(** A match of a pattern that needs [Q] has consumed a [Q] character. *)
Lemma rmatch_needs (Q : char -> bool) (A : Type) (r : regex) :
  needs Q r ->
  forall pos s (k : nat -> pystr -> option A) x,
    rmatch r pos s k = Some x ->
    exists m s',
      s = m ++ s' /\ Exists (fun c => Q c = true) m /\
      k (pos + length m) s' = Some x.
Proof.
  induction r as [ |c|items| | |a IHa b IHb|a IHa b IHb|a IHa|a IHa|a IHa];
    intros Hn pos s k x H; simpl in Hn; try contradiction.
  - simpl in H. destruct s as [|d s']; [discriminate|].
    destruct (char_eqb d c) eqn:E; [|discriminate].
    apply N.eqb_eq in E. subst d.
    exists [c], s'. simpl. rewrite Nat.add_1_r. auto.
  - simpl in H. destruct s as [|d s']; [discriminate|].
    destruct (class_matches items d) eqn:E; [|discriminate].
    exists [d], s'. simpl. rewrite Nat.add_1_r. auto.
  - simpl in H. destruct Hn as [Hn|Hn].
    + apply (IHa Hn) in H as (m & s' & -> & Hm & H).
      apply rmatch_run in H as (m2 & s2 & -> & H).
      exists (m ++ m2), s2. rewrite <- app_assoc. repeat split.
      * apply Exists_app. now left.
      * rewrite length_app, Nat.add_assoc. exact H.
    + apply rmatch_run in H as (m & s' & -> & H).
      apply (IHb Hn) in H as (m2 & s2 & -> & Hm2 & H).
      exists (m ++ m2), s2. rewrite <- app_assoc. repeat split.
      * apply Exists_app. now right.
      * rewrite length_app, Nat.add_assoc. exact H.
  - simpl in H. destruct Hn as [Ha Hb].
    destruct (rmatch a pos s k) eqn:E.
    + injection H as ->. now apply (IHa Ha) in E.
    + now apply (IHb Hb) in H.
  - simpl in H. apply (IHa Hn) in H as (m & s' & -> & Hm & H).
    apply star_loop_run in H as (m2 & s2 & -> & H).
    exists (m ++ m2), s2. rewrite <- app_assoc. repeat split.
    + apply Exists_app. now left.
    + rewrite length_app, Nat.add_assoc. exact H.
Qed.

(** Without a [Q] character in the subject there is no match. *)
Lemma finditer_from_without (Q : char -> bool) (r : regex) :
  needs Q r ->
  forall fuel must_advance pos s,
    Forall (fun c => Q c = false) s ->
    finditer_from r fuel must_advance pos s = [].
Proof.
  intros Hn. induction fuel as [|fuel IH]; intros ma pos s Hs; simpl.
  - reflexivity.
  - destruct (match_at r ma pos s) as [e|] eqn:E.
    + exfalso. unfold match_at in E.
      eapply rmatch_needs in E; [|exact Hn].
      destruct E as (m & s' & -> & Hm & _).
      apply Forall_app in Hs as [Hs _].
      apply Exists_exists in Hm as (c & Hin & Hc).
      rewrite Forall_forall in Hs. specialize (Hs c Hin). congruence.
    + destruct s as [|c s']; [reflexivity|].
      apply IH. now inversion Hs.
Qed.

Lemma class_chars (s : pystr) (c : char) :
  class_matches (chars s) c = mem_char c s.
Proof.
  unfold class_matches, chars, mem_char.
  induction s as [|d s IH]; simpl; [reflexivity|]. now rewrite IH.
Qed.

Lemma needs_digits1 : needs is_marker_char digits1.
Proof.
  simpl. intros c H. unfold class_matches in H. simpl in H.
  rewrite orb_false_r in H. unfold is_marker_char. now rewrite H.
Qed.

Lemma needs_cn1 : needs is_marker_char cn1.
Proof.
  unfold cn1. cbn [needs]. intros c H. rewrite class_chars in H.
  unfold is_marker_char. rewrite H. apply orb_true_r.
Qed.

Lemma needs_cn_or_digit1 : needs is_marker_char cn_or_digit1.
Proof.
  unfold cn_or_digit1. cbn [needs]. intros c H.
  unfold class_matches in H. rewrite existsb_app in H.
  apply orb_true_iff in H as [H|H].
  - fold (class_matches (chars cn_numerals) c) in H.
    rewrite class_chars in H. unfold is_marker_char. rewrite H.
    apply orb_true_r.
  - simpl in H. rewrite orb_false_r in H. unfold is_marker_char.
    now rewrite H.
Qed.

Lemma needs_patterns : Forall (needs is_marker_char) patterns.
Proof.
  unfold patterns.
  apply Forall_cons; [cbn [needs]; left; exact needs_digits1|].
  apply Forall_cons; [cbn [needs]; right; left; exact needs_cn_or_digit1|].
  apply Forall_cons; [cbn [needs]; right; left; exact needs_cn_or_digit1|].
  apply Forall_cons; [cbn [needs]; left; exact needs_cn1|].
  constructor.
Qed.

Lemma needs_level_1 : needs is_marker_char (build_level_regex 1).
Proof.
  cbn [build_level_regex needs]. right.
  split; [left; exact needs_digits1|].
  split; [left; exact needs_cn1|].
  split; right; left; exact needs_cn_or_digit1.
Qed.

Lemma findall_without (r : regex) (text : pystr) :
  needs is_marker_char r ->
  Forall (fun c => is_marker_char c = false) text ->
  findall r text = [].
Proof.
  intros Hn Ht. unfold findall, finditer.
  now rewrite (@finditer_from_without is_marker_char r Hn).
Qed.

Lemma detect_without_markers (text : pystr) (max_chars : nat) :
  Forall (fun c => is_marker_char c = false) (firstn max_chars text) ->
  detect_min_level text max_chars = 1.
Proof.
  intros Ht. unfold detect_min_level.
  assert (E : flat_map (fun pat => findall pat (firstn max_chars text))
                patterns = []).
  { pose proof needs_patterns as Hp. induction Hp as [|pat l Hpat _ IH].
    - reflexivity.
    - simpl. rewrite (@findall_without pat _ Hpat Ht). exact IH. }
  now rewrite E.
Qed.

(** X8.  A text without any decimal digit and without any Chinese numeral
    has no numbering: the detected depth is 1 and the text comes back
    whole, trimmed, as its only paragraph, or as no paragraph when only
    white space is left. *)
Theorem X8_text_without_markers_is_one_paragraph :
  forall (text : pystr),
    Forall (fun c => is_marker_char c = false) text ->
    detect_min_level text 1000 = 1 /\
    split_by_detected_level text =
    if nonempty (strip text) then [strip text] else [].
Proof.
  intros text Ht.
  assert (Hd : detect_min_level text 1000 = 1).
  { apply detect_without_markers. rewrite <- (firstn_skipn 1000 text) in Ht.
    now apply Forall_app in Ht. }
  split; [exact Hd|].
  unfold split_by_detected_level. rewrite Hd.
  unfold finditer.
  now rewrite (@finditer_from_without is_marker_char _ needs_level_1).
Qed.

Lemma no_marker_check (text : pystr) :
  forallb (fun c => negb (is_marker_char c)) text = true ->
  Forall (fun c => is_marker_char c = false) text.
Proof.
  intros H. apply Forall_forall. intros c Hc.
  rewrite forallb_forall in H. specialize (H c Hc).
  now destruct (is_marker_char c).
Qed.

Lemma X8_text_without_markers_witness :
  Forall (fun c => is_marker_char c = false) (u "  我们收集(手机号码)。
") /\
  split_by_detected_level (u "  我们收集(手机号码)。
") = [u "我们收集(手机号码)。"].
Proof.
  assert (H : Forall (fun c => is_marker_char c = false)
                (u "  我们收集(手机号码)。
"))
    by (apply no_marker_check; vm_compute; reflexivity).
  split; [exact H|].
  destruct (X8_text_without_markers_is_one_paragraph H) as [_ E].
  rewrite E. vm_compute. reflexivity.
Defined.

Lemma isspace_points (c : char) : py_isspace c = true -> In c space_points.
Proof.
  unfold py_isspace.
  rewrite !orb_true_iff, !andb_true_iff, !N.leb_le, !N.eqb_eq.
  intros H. unfold space_points. simpl In. lia.
Qed.

Lemma isspace_not_marker (c : char) :
  py_isspace c = true -> is_marker_char c = false.
Proof.
  intros H. apply isspace_points in H.
  assert (Hall : forallb (fun c => negb (is_marker_char c)) space_points
                 = true) by (vm_compute; reflexivity).
  rewrite forallb_forall in Hall. specialize (Hall c H).
  now destruct (is_marker_char c).
Qed.

Lemma dropwhile_all (p : char -> bool) (s : pystr) :
  Forall (fun c => p c = true) s -> dropwhile p s = [].
Proof.
  induction 1 as [|c s Hc _ IH]; simpl; [reflexivity|]. now rewrite Hc.
Qed.

Lemma strip_by_all (p : char -> bool) (s : pystr) :
  Forall (fun c => p c = true) s -> strip_by p s = [].
Proof. intros H. unfold strip_by. now rewrite (@dropwhile_all p s H). Qed.

(** X9.  An empty text, or one of white space only, has no paragraph. *)
Theorem X9_blank_text_has_no_paragraph :
  forall (text : pystr),
    Forall (fun c => py_isspace c = true) text ->
    split_by_detected_level text = [].
Proof.
  intros text Ht.
  assert (Hm : Forall (fun c => is_marker_char c = false) text).
  { eapply Forall_impl; [|exact Ht]. apply isspace_not_marker. }
  assert (Hd : detect_min_level text 1000 = 1).
  { apply detect_without_markers. rewrite <- (firstn_skipn 1000 text) in Hm.
    now apply Forall_app in Hm. }
  unfold split_by_detected_level. rewrite Hd. unfold finditer.
  rewrite (@finditer_from_without is_marker_char _ needs_level_1)
    by assumption.
  unfold strip. now rewrite (@strip_by_all py_isspace text Ht).
Qed.

Lemma X9_blank_text_witness :
  Forall (fun c => py_isspace c = true) (u " 
	　") /\
  split_by_detected_level (u " 
	　") = [].
Proof.
  assert (H : Forall (fun c => py_isspace c = true) (u " 
	　")).
  { apply Forall_forall. intros c Hc.
    assert (Hall : forallb py_isspace (u " 
	　") = true) by (vm_compute; reflexivity).
    rewrite forallb_forall in Hall. now apply Hall. }
  split; [exact H|]. exact (X9_blank_text_has_no_paragraph H).
Defined.

(** ** Paragraphs are parts of the document *)

Lemma slice_part (text : pystr) (i k : nat) :
  exists a b, text = a ++ slice text i k ++ b.
Proof.
  exists (firstn i text), (skipn (k - i) (skipn i text)).
  unfold slice. now rewrite !firstn_skipn.
Qed.

Lemma skipn_part (text : pystr) (i : nat) :
  exists a b, text = a ++ skipn i text ++ b.
Proof.
  exists (firstn i text), []. now rewrite app_nil_r, firstn_skipn.
Qed.

Lemma strip_trimmed_part (text y : pystr) :
  (exists a b, text = a ++ y ++ b) ->
  nonempty (strip y) = true -> trimmed_part text (strip y).
Proof.
  intros (a & b & Hy) Hne. split; [|split].
  - intros E. now rewrite E in Hne.
  - apply strip_by_idempotent.
  - destruct (strip_by_split py_isspace y) as (d & t & Hs & _).
    fold (strip y) in Hs.
    exists (a ++ d), (t ++ b). rewrite Hy. rewrite Hs at 1.
    now rewrite <- !app_assoc.
Qed.

Lemma filter_trimmed (text : pystr) (l : list pystr) :
  Forall (fun p => exists y, p = strip y /\
                             exists a b, text = a ++ y ++ b) l ->
  Forall (trimmed_part text) (filter nonempty l).
Proof.
  intros H. apply Forall_forall. intros p Hp.
  apply filter_In in Hp as [Hin Hne].
  rewrite Forall_forall in H. destruct (H p Hin) as (y & -> & Hy).
  now apply strip_trimmed_part.
Qed.

(** X10.  Every paragraph the splitter returns is non-empty, has no white
    space at either end, and is a contiguous part of the document. *)
Theorem X10_paragraphs_are_trimmed_parts :
  forall (text : pystr),
    Forall (trimmed_part text) (split_by_detected_level text).
Proof.
  intros text. unfold split_by_detected_level.
  set (matches := finditer _ text).
  destruct matches as [|m ms] eqn:Em.
  - destruct (nonempty (strip text)) eqn:Hne; [|constructor].
    constructor; [|constructor].
    apply strip_trimmed_part; [|assumption].
    exists [], []. now rewrite app_nil_r.
  - rewrite <- Em. clear Em.
    assert (Hparas : Forall (fun p => exists y, p = strip y /\
                               exists a b, text = a ++ y ++ b)
                       (map (fun sp => strip (slice text (fst sp) (snd sp)))
                          (para_spans matches (length text)))).
    { apply Forall_forall. intros p Hp. apply in_map_iff in Hp
        as (sp & <- & _).
      eexists. split; [reflexivity | apply slice_part]. }
    destruct (snd (last matches (0, 0)) <? length text).
    + destruct (nonempty (strip (skipn (snd (last matches (0, 0))) text))).
      * apply filter_trimmed. apply Forall_app. split; [exact Hparas|].
        constructor; [|constructor].
        eexists. split; [reflexivity | apply skipn_part].
      * now apply filter_trimmed.
    + now apply filter_trimmed.
Qed.

(** ** Where matches stand *)

Lemma match_at_end (r : regex) (must_advance : bool) (pos : nat) (s : pystr)
    (e : nat) :
  match_at r must_advance pos s = Some e -> pos <= e <= pos + length s.
Proof.
  unfold match_at. intros H.
  apply rmatch_run in H as (m & s' & -> & H).
  destruct (must_advance && Nat.eqb (pos + length m) pos); [discriminate|].
  injection H as <-. rewrite length_app. lia.
Qed.

(** Every span of [finditer_from] is a match at its start, and starts
    within the subject. *)
Lemma finditer_from_spans (r : regex) (fuel : nat) :
  forall must_advance pos s a b,
    In (a, b) (finditer_from r fuel must_advance pos s) ->
    pos <= a /\ a - pos <= length s /\
    exists ma, match_at r ma a (skipn (a - pos) s) = Some b.
Proof.
  induction fuel as [|fuel IH]; intros ma pos s a b Hin; simpl in Hin.
  - destruct Hin.
  - destruct (match_at r ma pos s) as [e|] eqn:E.
    + pose proof (match_at_end _ _ _ _ E) as He.
      destruct Hin as [Heq | Hin].
      * injection Heq as <- <-. rewrite Nat.sub_diag. simpl skipn.
        split; [lia|]. split; [lia|]. now exists ma.
      * apply IH in Hin as (H1 & H2 & ma' & H3).
        rewrite length_skipn in H2.
        split; [lia|]. split; [lia|]. exists ma'.
        rewrite skipn_skipn in H3.
        replace (a - e + (e - pos)) with (a - pos) in H3 by lia. exact H3.
    + destruct s as [|c s']; [destruct Hin|].
      apply IH in Hin as (H1 & H2 & ma' & H3).
      split; [lia|]. split; [simpl length; lia|]. exists ma'.
      replace (a - pos) with (S (a - S pos)) by lia. exact H3.
Qed.

Lemma skipn_head (text : pystr) (a : nat) (c : char) (rest : pystr) :
  skipn a text = c :: rest -> nth_error text a = Some c.
Proof.
  revert text. induction a as [|a IH]; intros text H.
  - simpl in H. now subst.
  - destruct text as [|d text]; [discriminate|]. simpl in *. now apply IH.
Qed.

Lemma line_start_match (body : regex) (must_advance : bool) (a : nat)
    (s : pystr) (b : nat) :
  match_at (RSeq line_start body) must_advance a s = Some b ->
  a = 0 \/ exists rest, s = LF :: rest.
Proof.
  unfold match_at, line_start. cbn [rmatch].
  destruct (Nat.eqb_spec a 0) as [->|Hne]; [now left|].
  destruct s as [|d s']; [discriminate|].
  destruct (char_eqb d LF) eqn:E; [|discriminate].
  apply N.eqb_eq in E. subst d. intros _. right. now exists s'.
Qed.

Lemma build_level_regex_anchored (level : nat) :
  exists body, build_level_regex level = RSeq line_start body.
Proof.
  destruct level as [|[|[|[|n]]]]; cbn [build_level_regex]; eauto.
Qed.

(** X11.  Whatever the level, a match of the level pattern starts at the
    start of the text or at a line feed, never inside a line, and lies
    within the text. *)
Theorem X11_level_matches_start_lines :
  forall (level : nat) (text : pystr),
    Forall
      (fun m =>
         (fst m = 0 \/ nth_error text (fst m) = Some LF) /\
         fst m <= snd m <= length text)
      (finditer (build_level_regex level) text).
Proof.
  intros level text. apply Forall_forall. intros [a b] Hin.
  unfold finditer in Hin.
  apply finditer_from_spans in Hin as (_ & Ha & ma & Hm).
  rewrite Nat.sub_0_r in Ha, Hm. simpl fst. simpl snd.
  split.
  - destruct (build_level_regex_anchored level) as [body Hb].
    rewrite Hb in Hm.
    apply line_start_match in Hm as [-> | [rest Hs]]; [now left|].
    right. now apply skipn_head in Hs.
  - apply match_at_end in Hm. rewrite length_skipn in Hm. lia.
Qed.

(** ** The detected depth *)

Lemma count_char_app (c : char) (a b : pystr) :
  count_char c (a ++ b) = count_char c a + count_char c b.
Proof. unfold count_char. now rewrite filter_app, length_app. Qed.

Lemma depth_of_bound (m : pystr) : 1 <= depth_of m <= count_char DOT m + 1.
Proof. unfold depth_of. destruct (mem_char DOT m); lia. Qed.

Lemma fold_depth_bounds (ms : list pystr) (bound : nat) :
  Forall (fun m => depth_of m <= bound) ms ->
  forall acc,
    acc <= bound ->
    acc <= fold_left
             (fun max_depth m =>
                let depth := depth_of m in
                if max_depth <? depth then depth else max_depth) ms acc
        <= bound.
Proof.
  induction 1 as [|m ms Hm _ IH]; intros acc Hacc; simpl.
  - lia.
  - cbv zeta. destruct (Nat.ltb_spec acc (depth_of m)).
    + specialize (IH (depth_of m) Hm). cbv zeta in IH. lia.
    + specialize (IH acc Hacc). cbv zeta in IH. lia.
Qed.

(** X12.  The detected depth is at least 1 and at most one more than the
    number of dots among the first [max_chars] characters, and it does not
    depend on what follows them. *)
Theorem X12_detect_min_level_bounds :
  forall (text : pystr) (max_chars : nat),
    1 <= detect_min_level text max_chars
      <= count_char DOT (firstn max_chars text) + 1 /\
    forall tail,
      max_chars <= length text ->
      detect_min_level (text ++ tail) max_chars
      = detect_min_level text max_chars.
Proof.
  intros text max_chars. split.
  - unfold detect_min_level. apply fold_depth_bounds; [|lia].
    apply Forall_forall. intros m Hm.
    apply in_flat_map in Hm as (pat & _ & Hm).
    unfold findall in Hm. apply in_map_iff in Hm as (sp & <- & _).
    destruct (slice_part (firstn max_chars text) (fst sp) (snd sp))
      as (a & b & Hs).
    pose proof (depth_of_bound
                  (slice (firstn max_chars text) (fst sp) (snd sp))) as Hd.
    rewrite Hs at 2. rewrite !count_char_app. lia.
  - intros tail Hlen. unfold detect_min_level.
    rewrite firstn_app.
    replace (max_chars - length text) with 0 by lia.
    simpl firstn at 2. now rewrite app_nil_r.
Qed.

(** ** The entity list *)

Lemma build_entity_raises (classified : pyval) (ent : pystr) (e : exn) :
  build_entity classified ent = Raise e -> e = AttributeError.
Proof.
  unfold build_entity, py_get. intros H.
  destruct classified; try (injection H as <-; reflexivity).
  destruct (dict_get d ent) as [inner|].
  - destruct inner; try (injection H as <-; reflexivity). discriminate.
  - discriminate.
Qed.

Lemma build_entity_dict (d : list (pystr * pyval)) (ent : pystr) :
  match dict_get d ent with
  | Some v =>
    if is_dict v then
      exists e, build_entity (PDict d) ent = Ok e /\ e_item e = ent
    else build_entity (PDict d) ent = Raise AttributeError
  | None =>
    build_entity (PDict d) ent
    = Ok {| e_item := ent; e_level1 := PStr []; e_level2 := PStr [] |}
  end.
Proof.
  unfold build_entity, py_get.
  destruct (dict_get d ent) as [v|]; [|reflexivity].
  destruct v; simpl; try reflexivity. eexists. split; reflexivity.
Qed.

(** X13.  With a dict of classifications, the entity list is built exactly
    when no requested item is mapped to something that is not a dict, and
    the attempt raises [AttributeError] otherwise.  The list has the items
    in their order, and an item the dict lacks gets the empty string in
    both category fields. *)
Theorem X13_build_entity_list_outcomes :
  forall (entities : list pystr) (d : list (pystr * pyval)),
    (build_entity_list entities (PDict d) = Raise AttributeError <->
     exists ent v,
       In ent entities /\ dict_get d ent = Some v /\ is_dict v = false) /\
    (forall e, build_entity_list entities (PDict d) = Raise e ->
               e = AttributeError) /\
    (forall l,
       build_entity_list entities (PDict d) = Ok l ->
       map e_item l = entities /\
       forall e, In e l -> dict_has d (e_item e) = false ->
                 e_level1 e = PStr [] /\ e_level2 e = PStr []).
Proof.
  intros entities d. unfold build_entity_list.
  induction entities as [|ent rest IH]; simpl.
  - split; [|split].
    + split; [discriminate | intros (ent & v & [] & _)].
    + discriminate.
    + intros l H. injection H as <-. split; [reflexivity | intros e []].
  - destruct IH as (IH1 & IH2 & IH3).
    pose proof (build_entity_dict d ent) as Hb.
    destruct (dict_get d ent) as [v|] eqn:Eg.
    + destruct (is_dict v) eqn:Ev.
      * destruct Hb as (e0 & -> & He0).
        destruct (map_result (build_entity (PDict d)) rest) as [es|x] eqn:Er.
        -- split; [|split].
           ++ split; [discriminate|].
              intros (ent' & v' & [<-|Hin] & Hg & Hv); [congruence|].
              exfalso. assert (Hex : exists ent v, In ent rest /\
                         dict_get d ent = Some v /\ is_dict v = false)
                by eauto.
              apply IH1 in Hex. discriminate.
           ++ discriminate.
           ++ intros l H. injection H as <-.
              destruct (IH3 es eq_refl) as [Hm Hl]. split.
              ** simpl. now rewrite He0, Hm.
              ** intros e [<-|Hin] Hh; [|now apply Hl].
                 unfold dict_has in Hh. rewrite He0, Eg in Hh. discriminate.
        -- pose proof (IH2 x eq_refl) as ->. split; [|split].
           ++ split; [|reflexivity]. intros _.
              destruct (proj1 IH1 eq_refl) as (ent' & v' & Hin & Hg & Hv).
              exists ent', v'. split; [now right | now split].
           ++ intros e H. now injection H as <-.
           ++ discriminate.
      * rewrite Hb. split; [|split].
        -- split; [|reflexivity]. intros _. exists ent, v.
           split; [now left | now split].
        -- intros e H. now injection H as <-.
        -- discriminate.
    + rewrite Hb.
      destruct (map_result (build_entity (PDict d)) rest) as [es|x] eqn:Er.
      * split; [|split].
        -- split; [discriminate|].
           intros (ent' & v' & [<-|Hin] & Hg & Hv); [congruence|].
           exfalso. assert (Hex : exists ent v, In ent rest /\
                      dict_get d ent = Some v /\ is_dict v = false)
             by eauto.
           apply IH1 in Hex. discriminate.
        -- discriminate.
        -- intros l H. injection H as <-.
           destruct (IH3 es eq_refl) as [Hm Hl]. split.
           ++ simpl. now rewrite Hm.
           ++ intros e [<-|Hin] Hh; [now split | now apply Hl].
      * pose proof (IH2 x eq_refl) as ->. split; [|split].
        -- split; [|reflexivity]. intros _.
           destruct (proj1 IH1 eq_refl) as (ent' & v' & Hin & Hg & Hv).
           exists ent', v'. split; [now right | now split].
        -- intros e H. now injection H as <-.
        -- discriminate.
Qed.

Lemma X13_build_entity_list_witness :
  build_entity_list demo_entities
    (PDict [(u "姓名", PStr (u "个人基本资料"))])
  = Raise AttributeError /\
  build_entity_list demo_entities (PDict [(u "姓名", basic_profile)])
  = Ok [{| e_item := u "姓名";
           e_level1 := PStr (u "个人基本资料");
           e_level2 := PStr (u "个人基本资料") |};
        {| e_item := u "设备型号";
           e_level1 := PStr [];
           e_level2 := PStr [] |}].
Proof.
  split.
  - apply (proj1 (X13_build_entity_list_outcomes demo_entities
                    [(u "姓名", PStr (u "个人基本资料"))])).
    exists (u "姓名"), (PStr (u "个人基本资料")).
    split; [now left|]. split; vm_compute; reflexivity.
  - vm_compute. reflexivity.
Defined.

(** X14.  After the fallback of the classifier every entity of the list is
    classed as the sentinel pair. *)
Theorem X14_fallback_entities_are_unclassified :
  forall (entities : list pystr),
    build_entity_list entities (PDict (fallback entities))
    = Ok (map unclassified_entity entities).
Proof.
  intros entities. unfold build_entity_list. apply map_result_ok.
  intros ent Hin. unfold build_entity, py_get.
  rewrite fallback_get.
  apply existsb_str_eqb in Hin. rewrite Hin. reflexivity.
Qed.

(** ** Flat records of known entities *)

Lemma NoDup_map_inj (A B : Type) (f : A -> B) (l : list A) (a b : A) :
  NoDup (map f l) -> In a l -> In b l -> f a = f b -> a = b.
Proof.
  induction l as [|x l IH]; intros Hnd Ha Hb Hf; [destruct Ha|].
  simpl in Hnd. inversion Hnd as [|? ? Hx Hnd']. subst.
  destruct Ha as [<-|Ha], Hb as [<-|Hb]; trivial.
  - exfalso. apply Hx. rewrite Hf. now apply in_map.
  - exfalso. apply Hx. rewrite <- Hf. now apply in_map.
  - now apply IH.
Qed.

Lemma find_present (para : para_info) (e : entity_info) :
  NoDup (map e_item (p_entities para)) -> In e (p_entities para) ->
  List.find (fun x => str_eq_val (e_item x) (PStr (e_item e)))
    (p_entities para) = Some e.
Proof.
  intros Hnd Hin.
  destruct (List.find _ (p_entities para)) as [x|] eqn:E.
  - apply find_some in E as [Hx Heq]. simpl in Heq.
    apply str_eqb_eq in Heq. f_equal.
    now apply (NoDup_map_inj e_item (p_entities para)).
  - exfalso. apply (find_none _ _ E) in Hin. simpl in Hin.
    now rewrite str_eqb_refl in Hin.
Qed.

(** X15.  The flat output has one record per action triple.  In a paragraph
    whose entity items are distinct, the record of a triple whose data item
    is an entity of the paragraph carries the two categories of that
    entity; a scenario of two fields gives the empty string as third
    level. *)
Theorem X15_flat_records_carry_entity_categories :
  forall (policy_name : pyval) (processed_content : list para_info),
  exists flat,
    flatten_results policy_name processed_content = Ok flat /\
    length flat
    = list_sum (map (fun para => length (p_relations para)) processed_content)
    /\
    forall para rel e,
      In para processed_content -> In rel (p_relations para) ->
      NoDup (map e_item (p_entities para)) ->
      In e (p_entities para) -> r_item rel = PStr (e_item e) ->
      exists fr,
        In fr flat /\ f_item fr = r_item rel /\
        f_number fr = p_number para /\
        f_level1 fr = e_level1 e /\ f_level2 fr = e_level2 e /\
        (length (r_scene rel) = 2 -> f_scene3 fr = PStr []).
Proof.
  intros policy_name pc. eexists. split; [apply flatten_results_ok|]. split.
  - unfold flat_of_content. rewrite flat_map_concat_map, length_concat.
    rewrite !map_map. f_equal. apply map_ext. intros para.
    now rewrite length_map.
  - intros para rel e Hpara Hrel Hnd He Hitem.
    exists (flat_of policy_name para rel). split.
    + unfold flat_of_content. apply in_flat_map.
      exists para. split; [assumption|]. now apply in_map.
    + unfold flat_of. cbn [f_item f_number f_level1 f_level2 f_scene3].
      rewrite Hitem, (@find_present para e Hnd He).
      repeat split. intros Hlen. unfold scene_field.
      apply nth_overflow. lia.
Qed.

Lemma X15_flat_records_witness :
  exists flat,
    flatten_results (PStr (u "政策_1")) [demo_info] = Ok flat /\
    length flat = 1 /\
    exists fr,
      In fr flat /\ f_item fr = PStr (u "手机号码") /\
      f_level1 fr = PStr (u "个人基本资料").
Proof.
  destruct (X15_flat_records_carry_entity_categories (PStr (u "政策_1"))
              [demo_info]) as (flat & Hok & Hlen & H).
  exists flat. split; [exact Hok|]. split; [exact Hlen|].
  destruct (H demo_info demo_relation
              {| e_item := u "手机号码";
                 e_level1 := PStr (u "个人基本资料");
                 e_level2 := PStr (u "个人基本资料") |})
    as (fr & Hin & Hitem & _ & Hl1 & _).
  - now left.
  - now left.
  - vm_compute. repeat constructor. intros [].
  - now left.
  - reflexivity.
  - exists fr. split; [exact Hin|]. split; [exact Hitem | exact Hl1].
Defined.

(** ** What the records keep *)

Section RecordInvariants.

Variable world : Type.
Variable call_deepseek_api : prompt -> world -> result (option pystr) * world.
Variable json_loads : pystr -> option pyval.

Lemma extract_entities_items (para : pystr) (w w' : world)
    (items : list pystr) :
  extract_entities call_deepseek_api json_loads para w = (Ok items, w') ->
  NoDup items /\ forall x, In x items -> x <> [] /\ strip x = x.
Proof.
  assert (Hsame : forall l : list pystr,
            match l with [] => [] | _ => l end = l) by (now intros []).
  pose proof (extract_personal_data_cases call_deepseek_api json_loads
                para w) as Hc.
  unfold extract_entities, bind, ret.
  destruct (call_deepseek_api (PromptExtract para) w) as [[r|e] w1].
  - destruct Hc as [-> | [l ->]]; cbv beta iota; rewrite ?Hsame;
      intros H; injection H as <- _.
    + split; [constructor | intros x []].
    + destruct (clean_items_spec l) as [Hnd Hx]. split; [exact Hnd|].
      intros x Hin. destruct (Hx x Hin) as (H1 & H2 & _). now split.
  - rewrite Hc. discriminate.
Qed.

Lemma get_scene_tags_shape (para : pystr) (w w' : world)
    (tags : list pyval) :
  get_scene_tags call_deepseek_api json_loads para w = (Ok tags, w') ->
  Forall (fun t => exists fields, t = PList fields /\ 2 <= length fields)
    tags.
Proof.
  unfold get_scene_tags, recognize_scenarios_and_build_relations.
  run_monad. intros H.
  destruct (call_deepseek_api _ w) as [[response|e] w1]; [|discriminate].
  assert (Hfilter : forall items,
            Forall (fun t => exists fields,
                        t = PList fields /\ 2 <= length fields)
              (filter (is_list_of_at_least 2) items)).
  { intros items. apply Forall_forall. intros t Ht.
    apply filter_In in Ht as [_ Ht]. destruct t; try discriminate.
    unfold is_list_of_at_least in Ht. apply Nat.leb_le in Ht. eauto. }
  destruct (has_content response).
  - destruct response as [response|].
    + destruct (robust_json_loads json_loads response) as [v|e];
        [|discriminate].
      destruct (py_iter (if truthy v then v else PList [])) as [items|e];
        [|discriminate].
      injection H as <- _. apply Hfilter.
    + injection H as <- _. constructor.
  - injection H as <- _. constructor.
Qed.

(** The fields of a record come from the paragraph and its stages. *)
Lemma process_paragraph_fields (i : nat) (para : pystr) (w w' : world)
    (info : para_info) :
  process_paragraph call_deepseek_api json_loads i para w = (Ok info, w') ->
  p_number info = i + 1 /\ p_text info = para /\
  NoDup (map e_item (p_entities info)) /\
  Forall (fun e => e_item e <> [] /\ strip (e_item e) = e_item e)
    (p_entities info) /\
  Forall (fun t => exists fields, t = PList fields /\ 2 <= length fields)
    (p_scene_tags info) /\
  Forall (fun rel => length (r_scene rel) = 3) (p_relations info).
Proof.
  intros H. unfold process_paragraph in H. run_monad.
  destruct (get_scene_tags call_deepseek_api json_loads para w)
    as [[scene_tags|e] w1] eqn:Et; [|discriminate].
  destruct (extract_entities call_deepseek_api json_loads para w1)
    as [[entities|e] w2] eqn:Ee; [|discriminate].
  destruct (classify_entities call_deepseek_api json_loads entities w2)
    as [[classified|e] w3]; [|discriminate].
  destruct (build_entity_list entities classified) as [entity_list|e] eqn:Eb;
    [|discriminate].
  destruct (analyze_actions call_deepseek_api json_loads para scene_tags
              entities w3) as [[relations_raw|e] w4]; [|discriminate].
  destruct (relations_of relations_raw) as [relations|e] eqn:Er;
    [|discriminate].
  injection H as <- <-. cbn [p_number p_text p_entities p_scene_tags
                             p_relations].
  apply build_entity_list_items in Eb.
  apply extract_entities_items in Ee as [Hnd Hitems].
  split; [reflexivity|]. split; [reflexivity|].
  split; [now rewrite Eb|]. split; [|split].
  - apply Forall_forall. intros e He. apply Hitems. rewrite <- Eb.
    now apply in_map.
  - exact (get_scene_tags_shape _ _ Et).
  - apply Forall_forall. intros rel Hrel.
    destruct (relations_of_spec _ Er rel Hrel)
      as (items & fields & _ & _ & Hlen & -> & _).
    rewrite length_firstn. lia.
Qed.

(** X16.  What every recorded paragraph keeps: its text is the paragraph,
    its number the paragraph's position counted from 1, its entity items
    are pairwise distinct, non-empty and free of white space at both ends,
    its scenario tags are lists of at least two fields, and the scenario of
    each of its action triples has exactly three fields. *)
Theorem X16_paragraph_record_invariants :
  forall (i : nat) (para : pystr) (w w' : world) (info : para_info),
    process_paragraph call_deepseek_api json_loads i para w = (Ok info, w') ->
    p_number info = i + 1 /\ p_text info = para /\
    NoDup (map e_item (p_entities info)) /\
    Forall (fun e => e_item e <> [] /\ strip (e_item e) = e_item e)
      (p_entities info) /\
    Forall (fun t => exists fields, t = PList fields /\ 2 <= length fields)
      (p_scene_tags info) /\
    Forall (fun rel => length (r_scene rel) = 3) (p_relations info).
Proof. intros i para w w' info H. exact (process_paragraph_fields _ _ _ H). Qed.

Lemma Processed_numbers (i : nat) (paragraphs : list pystr) (w w' : world)
    (recorded : list para_info) :
  Processed call_deepseek_api json_loads i paragraphs w recorded w' ->
  Forall
    (fun info =>
       i < p_number info <= i + length paragraphs /\
       nth_error paragraphs (p_number info - i - 1) = Some (p_text info))
    recorded /\
  StronglySorted lt (map p_number recorded) /\
  length recorded <= length paragraphs.
Proof.
  induction 1 as [i w | i para rest w info w1 recorded w2 Hp _ IH
                  | i para rest w e w1 recorded w2 Hp _ IH].
  - repeat split; constructor.
  - destruct IH as (Hall & Hs & Hlen).
    apply process_paragraph_fields in Hp as (Hn & Ht & _).
    assert (Hshift : Forall
              (fun info0 =>
                 i < p_number info0 <= i + length (para :: rest) /\
                 nth_error (para :: rest) (p_number info0 - i - 1)
                 = Some (p_text info0)) recorded).
    { eapply Forall_impl; [|exact Hall].
      intros x [Hx1 Hx2]. simpl length. split; [lia|].
      replace (p_number x - i - 1) with (S (p_number x - S i - 1)) by lia.
      exact Hx2. }
    split; [|split].
    + constructor; [|exact Hshift].
      rewrite Hn, Ht. simpl length. split; [lia|].
      replace (i + 1 - i - 1) with 0 by lia. reflexivity.
    + simpl map. constructor; [exact Hs|].
      rewrite Forall_map. eapply Forall_impl; [|exact Hall].
      intros x [Hx _]. lia.
    + simpl length. lia.
  - destruct IH as (Hall & Hs & Hlen). split; [|split].
    + eapply Forall_impl; [|exact Hall].
      intros x [Hx1 Hx2]. simpl length. split; [lia|].
      replace (p_number x - i - 1) with (S (p_number x - S i - 1)) by lia.
      exact Hx2.
    + exact Hs.
    + simpl length. lia.
Qed.

(** X17.  The records of a document keep the numbering of its paragraphs:
    the numbers increase strictly, each is the position, counted from 1, of
    the paragraph whose text the record holds, and a dropped paragraph
    leaves a gap rather than renumbering the ones after it. *)
Theorem X17_paragraph_numbers_are_positions :
  forall (paragraphs : list pystr) (w w' : world)
         (recorded : list para_info),
    process_paragraphs call_deepseek_api json_loads 0 paragraphs [] w
    = (Ok recorded, w') ->
    Forall
      (fun info =>
         1 <= p_number info <= length paragraphs /\
         nth_error paragraphs (p_number info - 1) = Some (p_text info))
      recorded /\
    StronglySorted lt (map p_number recorded) /\
    length recorded <= length paragraphs.
Proof.
  intros paragraphs w w' recorded H.
  destruct (process_paragraphs_spec call_deepseek_api json_loads paragraphs
              0 [] w) as (rec' & w'' & Hrun & Hp).
  rewrite Hrun in H. simpl app in H. injection H as <- <-.
  apply Processed_numbers in Hp as (Hall & Hs & Hlen).
  split; [|split; assumption].
  eapply Forall_impl; [|exact Hall].
  intros x [Hx1 Hx2]. split; [lia|].
  replace (p_number x - 1) with (p_number x - 0 - 1) by lia. exact Hx2.
Qed.

Lemma Policies_entries (name_column : bool) (rows : list row) (w w' : world)
    (results : list policy_result) :
  Policies call_deepseek_api json_loads name_column rows w results w' ->
  Forall2
    (fun r p =>
       pol_name p = policy_name_of name_column r /\
       exists policy_text,
         row_policy r = PStr policy_text /\
         Forall
           (fun info =>
              In (p_text info) (split_by_detected_level policy_text))
           (pol_content p))
    (filter usable_row rows) results.
Proof.
  induction 1 as [w | r rest w results w' Hu _ IH
                  | r text rest w recorded w1 results w2 Ht Hu Hp _ IH].
  - constructor.
  - simpl. now rewrite Hu.
  - simpl. rewrite Hu. constructor; [|exact IH].
    split; [reflexivity|]. exists text. split; [exact Ht|].
    apply Processed_numbers in Hp as (Hall & _).
    eapply Forall_impl; [|exact Hall].
    intros x [_ Hx]. simpl. now apply nth_error_In in Hx.
Qed.

(** X18.  The nested output has one entry per usable row, in the order of
    the rows: its name is the row's name cell, or 政策_ followed by the
    row's index plus one when the table has no name column, and the text
    of each of its paragraph records is a paragraph of the row's text.
    The flat output is the concatenation of the flat records of the
    entries. *)
Theorem X18_one_entry_per_usable_row :
  forall (name_column : bool) (rows : list row) (w w' : world)
         (results : list policy_result) (final_results : list flat_record),
    process_policies call_deepseek_api json_loads name_column rows w
    = (Ok (results, final_results), w') ->
    Forall2
      (fun r p =>
         pol_name p = policy_name_of name_column r /\
         exists policy_text,
           row_policy r = PStr policy_text /\
           Forall
             (fun info =>
                In (p_text info) (split_by_detected_level policy_text))
             (pol_content p))
      (filter usable_row rows) results /\
    final_results = flat_map flat_of_policy results.
Proof.
  intros name_column rows w w' results final H.
  unfold process_policies in H.
  destruct (process_rows_spec call_deepseek_api json_loads name_column rows
              [] [] w) as (recorded & w'' & Hrun & Hpol).
  rewrite Hrun in H. simpl app in H. injection H as <- <- <-.
  split; [|reflexivity]. exact (Policies_entries Hpol).
Qed.

End RecordInvariants.

Lemma X16_paragraph_record_witness :
  process_paragraph scripted json_loads_model 0 demo_para demo_script
  = (Ok demo_info, []) /\
  p_number demo_info = 1 /\ NoDup (map e_item (p_entities demo_info)).
Proof.
  assert (H : process_paragraph scripted json_loads_model 0 demo_para
                demo_script = (Ok demo_info, []))
    by (vm_compute; reflexivity).
  split; [exact H|].
  destruct (@X16_paragraph_record_invariants script scripted json_loads_model
              0 demo_para demo_script [] demo_info H)
    as (Hn & _ & Hnd & _).
  split; [exact Hn | exact Hnd].
Defined.

Lemma X17_paragraph_numbers_witness :
  process_paragraphs scripted json_loads_model 0
    [u "无关段落"; demo_para]
    [] (reply (u "不是JSON") :: demo_script)
  = (Ok [{| p_text := demo_para;
            p_number := 2;
            p_scene_tags := p_scene_tags demo_info;
            p_entities := p_entities demo_info;
            p_relations := p_relations demo_info |}], []) /\
  StronglySorted lt [2].
Proof.
  assert (H : process_paragraphs scripted json_loads_model 0
                [u "无关段落"; demo_para]
                [] (reply (u "不是JSON") :: demo_script)
              = (Ok [{| p_text := demo_para;
                        p_number := 2;
                        p_scene_tags := p_scene_tags demo_info;
                        p_entities := p_entities demo_info;
                        p_relations := p_relations demo_info |}], []))
    by (vm_compute; reflexivity).
  split; [exact H|].
  destruct (@X17_paragraph_numbers_are_positions script scripted
              json_loads_model _ _ _ _ H) as (_ & Hs & _).
  exact Hs.
Defined.

Lemma X18_one_entry_witness :
  process_policies scripted json_loads_model false
    [row_nan; row_text; row_blank] demo_script
  = (Ok ([{| pol_name := PStr (u "政策_1"); pol_content := [demo_info] |}],
         [flat_of (PStr (u "政策_1")) demo_info demo_relation]), []) /\
  [flat_of (PStr (u "政策_1")) demo_info demo_relation]
  = flat_map flat_of_policy
      [{| pol_name := PStr (u "政策_1"); pol_content := [demo_info] |}].
Proof.
  assert (H : process_policies scripted json_loads_model false
                [row_nan; row_text; row_blank] demo_script
              = (Ok ([{| pol_name := PStr (u "政策_1");
                         pol_content := [demo_info] |}],
                     [flat_of (PStr (u "政策_1")) demo_info demo_relation]),
                 []))
    by (vm_compute; reflexivity).
  split; [exact H|].
  destruct (@X18_one_entry_per_usable_row script scripted json_loads_model
              _ _ _ _ _ _ H) as [_ Hf].
  exact Hf.
Defined.

(** ** [build_relations] *)

Lemma build_relations_length (scene_tags : list (list pyval))
    (entities : list pystr) :
  length (build_relations scene_tags entities)
  = length scene_tags * length entities.
Proof.
  unfold build_relations. induction scene_tags as [|s l IH]; simpl.
  - reflexivity.
  - rewrite length_app, length_map. now f_equal.
Qed.

(** X19.  [build_relations] pairs every scenario tag with every entity:
    as many relations as pairs, each with the action 收集, and in a
    paragraph whose entity items are distinct every flat record of such a
    relation carries the categories of its entity. *)
Theorem X19_build_relations_is_the_cross_product :
  forall (scene_tags : list (list pyval)) (entities : list pystr),
    length (build_relations scene_tags entities)
    = length scene_tags * length entities /\
    (forall rel,
       In rel (build_relations scene_tags entities) <->
       exists scene ent,
         In scene scene_tags /\ In ent entities /\
         rel = {| r_scene := scene; r_action := PStr COLLECT;
                  r_item := PStr ent |}) /\
    (forall policy_name para rel,
       map e_item (p_entities para) = entities ->
       NoDup entities ->
       In rel (build_relations scene_tags entities) ->
       exists e,
         In e (p_entities para) /\ r_item rel = PStr (e_item e) /\
         f_level1 (flat_of policy_name para rel) = e_level1 e /\
         f_level2 (flat_of policy_name para rel) = e_level2 e).
Proof.
  intros scene_tags entities.
  assert (Hin : forall rel,
            In rel (build_relations scene_tags entities) <->
            exists scene ent,
              In scene scene_tags /\ In ent entities /\
              rel = {| r_scene := scene; r_action := PStr COLLECT;
                       r_item := PStr ent |}).
  { intros rel. unfold build_relations. rewrite in_flat_map. split.
    - intros (scene & Hs & Hr). apply in_map_iff in Hr as (ent & <- & He).
      now exists scene, ent.
    - intros (scene & ent & Hs & He & ->). exists scene. split; [assumption|].
      apply in_map_iff. now exists ent. }
  split; [|split].
  - apply build_relations_length.
  - exact Hin.
  - intros policy_name para rel Hitems Hnd Hrel.
    apply Hin in Hrel as (scene & ent & _ & He & ->).
    rewrite <- Hitems in He, Hnd.
    apply in_map_iff in He as (e & <- & He).
    exists e. split; [assumption|]. split; [reflexivity|].
    unfold flat_of. cbn [f_level1 f_level2 r_item].
    rewrite (@find_present para e Hnd He). now split.
Qed.

(** ** [get_policy_column] *)

Section PolicyColumnProperties.

Variable lowered : pyval -> pystr.

(** X20.  The column picked is a column of the table, or the label
    [policy] when the table has it; it is the label [policy] whenever the
    table has it, and otherwise the first column whose lower-cased name
    contains policy, text or content.  The error is raised exactly when
    the table has neither. *)
Theorem X20_get_policy_column_picks_first_candidate :
  forall (columns : list pyval),
    (existsb (str_eq_val POLICY) columns = true ->
     get_policy_column lowered columns = Some (PStr POLICY)) /\
    (forall col,
       get_policy_column lowered columns = Some col ->
       In col columns /\
       (col = PStr POLICY \/
        exists before after,
          columns = before ++ col :: after /\
          likely_column lowered col = true /\
          Forall (fun c => likely_column lowered c = false) before)) /\
    (get_policy_column lowered columns = None <->
     Forall (fun c => str_eq_val POLICY c = false
                      /\ likely_column lowered c = false) columns).
Proof.
  intros columns. unfold get_policy_column.
  assert (Hfirst : forall l col rest,
            filter (likely_column lowered) l = col :: rest ->
            exists before after,
              l = before ++ col :: after /\
              likely_column lowered col = true /\
              Forall (fun c => likely_column lowered c = false) before).
  { induction l as [|x l IH]; intros col rest H; [discriminate|].
    simpl in H. destruct (likely_column lowered x) eqn:Ex.
    - injection H as <- _. exists [], l. repeat split; [assumption|constructor].
    - destruct (IH _ _ H) as (b & a & -> & Hc & Hb).
      exists (x :: b), a. repeat split; [assumption | now constructor]. }
  destruct (existsb (str_eq_val POLICY) columns) eqn:Ep.
  - split; [reflexivity|]. split.
    + intros col H. injection H as <-. split; [|now left].
      apply existsb_exists in Ep as (x & Hx & Heq).
      destruct x; try discriminate. cbn [str_eq_val] in Heq.
      apply str_eqb_eq in Heq. now subst.
    + split; [discriminate|]. intros Hall. exfalso.
      apply existsb_exists in Ep as (x & Hx & Heq).
      rewrite Forall_forall in Hall. destruct (Hall x Hx). congruence.
  - split; [discriminate|]. split.
    + intros col H.
      destruct (filter (likely_column lowered) columns) as [|c rest] eqn:Ef;
        [discriminate|].
      injection H as <-.
      destruct (Hfirst _ _ _ Ef) as (b & a & Hc & Hl & Hb).
      split.
      * rewrite Hc. apply in_or_app. right. now left.
      * right. now exists b, a.
    + destruct (filter (likely_column lowered) columns) as [|c rest] eqn:Ef.
      * split; [|reflexivity]. intros _. apply Forall_forall. intros x Hx.
        split.
        -- destruct (str_eq_val POLICY x) eqn:E; [|reflexivity].
           assert (Hex : existsb (str_eq_val POLICY) columns = true)
             by (apply existsb_exists; eauto).
           congruence.
        -- destruct (likely_column lowered x) eqn:E; [|reflexivity].
           assert (Hin : In x (filter (likely_column lowered) columns))
             by (apply filter_In; now split).
           rewrite Ef in Hin. destruct Hin.
      * split; [discriminate|]. intros Hall. exfalso.
        assert (Hin : In c (filter (likely_column lowered) columns))
          by (rewrite Ef; now left).
        apply filter_In in Hin as [Hin Hl].
        rewrite Forall_forall in Hall. destruct (Hall c Hin). congruence.
Qed.

End PolicyColumnProperties.

Lemma X20_get_policy_column_witness :
  get_policy_column ascii_lowered
    [PStr (u "name"); PInt 3; PStr (u "Policy Text"); PStr (u "content")]
  = Some (PStr (u "Policy Text")) /\
  In (PStr (u "Policy Text"))
    [PStr (u "name"); PInt 3; PStr (u "Policy Text"); PStr (u "content")] /\
  get_policy_column ascii_lowered [PStr (u "name"); PStr (u "policy")]
  = Some (PStr POLICY) /\
  get_policy_column ascii_lowered [PStr (u "name"); PInt 3] = None.
Proof.
  assert (H : get_policy_column ascii_lowered
                [PStr (u "name"); PInt 3; PStr (u "Policy Text");
                 PStr (u "content")]
              = Some (PStr (u "Policy Text")))
    by (vm_compute; reflexivity).
  split; [exact H|]. split; [|split].
  - destruct (X20_get_policy_column_picks_first_candidate ascii_lowered
                [PStr (u "name"); PInt 3; PStr (u "Policy Text");
                 PStr (u "content")]) as (_ & Hc & _).
    exact (proj1 (Hc _ H)).
  - destruct (X20_get_policy_column_picks_first_candidate ascii_lowered
                [PStr (u "name"); PStr (u "policy")]) as (Hp & _).
    apply Hp. vm_compute. reflexivity.
  - destruct (X20_get_policy_column_picks_first_candidate ascii_lowered
                [PStr (u "name"); PInt 3]) as (_ & _ & Hn).
    apply Hn. repeat constructor.
Defined.

Lemma X19_build_relations_witness :
  NoDup demo_entities /\
  exists e,
    In e (map unclassified_entity demo_entities) /\
    PStr (u "设备型号") = PStr (e_item e) /\
    f_level1
      (flat_of PNone
         {| p_text := demo_para; p_number := 1; p_scene_tags := [demo_tag];
            p_entities := map unclassified_entity demo_entities;
            p_relations := [] |}
         {| r_scene := [PStr (u "账户与身份管理"); PStr (u "登录与注册")];
            r_action := PStr COLLECT;
            r_item := PStr (u "设备型号") |})
    = e_level1 e.
Proof.
  assert (Hnd : NoDup demo_entities).
  { vm_compute. repeat constructor; simpl; intuition discriminate. }
  split; [exact Hnd|].
  destruct (X19_build_relations_is_the_cross_product
              [[PStr (u "账户与身份管理"); PStr (u "登录与注册")]]
              demo_entities) as (_ & _ & H).
  destruct (H PNone
              {| p_text := demo_para; p_number := 1;
                 p_scene_tags := [demo_tag];
                 p_entities := map unclassified_entity demo_entities;
                 p_relations := [] |}
              {| r_scene := [PStr (u "账户与身份管理"); PStr (u "登录与注册")];
                 r_action := PStr COLLECT;
                 r_item := PStr (u "设备型号") |})
    as (e & He & Hi & H1 & _).
  - reflexivity.
  - exact Hnd.
  - vm_compute. right. now left.
  - exists e. split; [exact He|]. split; [exact Hi | exact H1].
Defined.


Lemma X12_detect_min_level_witness :
  3 <= length (u "1.1 范围") /\
  detect_min_level (u "1.1 范围" ++ u "
1.1.1 细则") 3
  = detect_min_level (u "1.1 范围") 3 /\
  detect_min_level (u "1.1 范围") 3 = 2.
Proof.
  assert (H : 3 <= length (u "1.1 范围")) by (vm_compute; lia).
  split; [exact H|]. split.
  - destruct (X12_detect_min_level_bounds (u "1.1 范围") 3) as [_ E].
    exact (E _ H).
  - vm_compute. reflexivity.
Defined.
